(** * Value-flow reconciliation of corp_ledger.py

    A shallow embedding of the ledger commands of [src/corp_ledger.py]:
    [rebuild_member_flows], [get_flow_totals], [get_member_net_values],
    [get_recent_member_flows], [cmd_sync_flows], [cmd_dashboard],
    [load_config], the timestamp and the note of the lines of
    [cmd_report_flows], and on the side of the sources
    [sync_wallet_journal], [update_donations_from_journal],
    [cmd_sync_wallet], [sync_industry_jobs] and [sync_contracts], with the
    properties of the derived ledger [member_flows] and of the tables it
    is derived from.

    Conventions of the embedding.
    - A nullable SQL column, and the Python value read from it, is an
      [option]: [None] is both SQL NULL and Python None.
    - INTEGER columns are [Z]; TEXT columns are [string], a text being the
      list of its characters; REAL columns and Python floats are exact
      rationals [Qc], so [float(x)] is the identity on numbers and rounding
      is outside the model.
    - The sqlite3 connection is explicit state: the committed file, the
      uncommitted view of [member_flows], a counter of storage calls and
      the index of the storage call that fails, if any.
    - ESI is the environment: a function from the page requested to the
      response, an exception or the decoded entries with the fields that
      the ledger reads. A loop over pages runs on fuel.
    - Console output ([print]) is not part of the state. *)

From Stdlib Require Import ZArith QArith Qcanon Ascii String DecimalString Sorted.
From stdpp Require Import base option numbers list strings gmap.

Local Open Scope Z_scope.

(** ** SQL three-valued conditions *)

Module SQL.

(** The value of a WHERE condition: [None] is NULL (unknown). *)
Definition cond := option bool.

Definition IS_NULL {A} (x : option A) : cond :=
  Some (match x with Some _ => false | None => true end).

Definition IS_NOT_NULL {A} (x : option A) : cond :=
  Some (match x with Some _ => true | None => false end).

(** [column = literal]: NULL when the column is NULL. *)
Definition EQ {A} `{EqDecision A} (x : option A) (v : A) : cond :=
  match x with
  | Some a => Some (bool_decide (a = v))
  | None => None
  end.

Definition AND (a b : cond) : cond :=
  match a, b with
  | Some false, _ | _, Some false => Some false
  | Some true, Some true => Some true
  | _, _ => None
  end.

Definition OR (a b : cond) : cond :=
  match a, b with
  | Some true, _ | _, Some true => Some true
  | Some false, Some false => Some false
  | _, _ => None
  end.

(** A row is selected when its WHERE condition is true: false and NULL
    both reject it. *)
Definition holds (c : cond) : bool :=
  match c with
  | Some true => true
  | _ => false
  end.

(** [SUM] over the rows of a group: NULL on no rows. *)
Definition SUM (l : list Qc) : option Qc :=
  match l with
  | [] => None
  | _ => Some (foldr Qcplus 0%Qc l)
  end.

Definition COALESCE {A} (x : option A) (d : A) : A := default d x.

End SQL.

(** ** The tables of [init_db] read or written by the rebuild *)

Module Donations.
Record row := Row {
  journal_esi_id : option Z;
  character_id : option Z;
  amount : option Qc;
  description : option string }.
End Donations.

Module Contracts.
Record row := Row {
  contract_id : option Z;
  issuer_id : option Z;
  assignee_id : option Z;
  status : option string;
  for_corporation : option Z;
  price : option Qc;
  janice_immediate_split : option Qc }.
End Contracts.

Module IndustryJobs.
Record row := Row {
  job_id : option Z;
  installer_id : option Z;
  product_type_id : option Z;
  runs : option Z;
  cost : option Qc;
  status : option string }.
End IndustryJobs.

Module MarketOrders.
Record row := Row {
  order_id : option Z;
  volume_total : option Z;
  volume_remain : option Z;
  price : option Qc;
  is_buy_order : option Z;
  issued_by : option Z;
  state : option string;
  is_history : option Z }.
End MarketOrders.

(** [member_flows]: [character_id], [direction], [source] and [value_isk]
    are NOT NULL; [id] is INTEGER PRIMARY KEY AUTOINCREMENT and
    [created_at] defaults to CURRENT_TIMESTAMP. *)
Module MemberFlows.
Record row := Row {
  id : Z;
  character_id : Z;
  direction : string;
  source : string;
  contract_id : option Z;
  journal_esi_id : option Z;
  value_isk : Qc;
  created_at : string;
  note : string }.

(** The columns an INSERT of the rebuild supplies; [id] and [created_at]
    are filled in by the store. *)
Record values := Values {
  v_character_id : Z;
  v_direction : string;
  v_source : string;
  v_contract_id : option Z;
  v_journal_esi_id : option Z;
  v_value_isk : Qc;
  v_note : string }.

Definition stored (i : Z) (ts : string) (v : values) : row :=
  Row i (v_character_id v) (v_direction v) (v_source v) (v_contract_id v)
      (v_journal_esi_id v) (v_value_isk v) ts (v_note v).

(** A row without the two columns the store fills in. *)
Definition content (r : row) : values :=
  Values (character_id r) (direction r) (source r) (contract_id r)
         (journal_esi_id r) (value_isk r) (note r).

(** The table with its AUTOINCREMENT counter (sqlite_sequence): [seq] is
    the largest id ever handed out, and DELETE does not reset it. *)
Record table := Table {
  rows : list row;
  seq : Z }.
End MemberFlows.

(** The committed contents of the database file. *)
Record database := Database {
  donations : list Donations.row;
  contracts : list Contracts.row;
  industry_jobs : list IndustryJobs.row;
  market_orders : list MarketOrders.row;
  member_flows : MemberFlows.table }.

(** ** The Python layer: exceptions, the connection, storage calls *)

Inductive exn := TypeError | ZeroDivisionError | OperationalError.

Inductive outcome (A : Type) :=
| Ok (a : A)
| Raise (e : exn).
Arguments Ok {A} a.
Arguments Raise {A} e.

(** A [sqlite3.connect(db_path)] connection in its default transaction
    mode: the first DELETE or INSERT opens a transaction, whose changes
    stay in [uncommitted] until [commit()] writes them to [file]. Other
    connections read [file]. [calls] counts the storage calls made so far;
    the call numbered [fail_at], if any, raises; [clock n] is the
    CURRENT_TIMESTAMP seen by call [n]. *)
Record connection := Connection {
  file : database;
  uncommitted : option MemberFlows.table;
  calls : nat;
  fail_at : option nat;
  clock : nat → string }.

(** What this connection reads from [member_flows]. *)
Definition view (c : connection) : MemberFlows.table :=
  default (member_flows (file c)) (uncommitted c).

Definition py (A : Type) : Type := connection → outcome A * connection.

#[global] Instance py_ret : MRet py := λ A a c, (Ok a, c).

#[global] Instance py_bind : MBind py := λ A B f m c,
  match m c with
  | (Ok a, c') => f a c'
  | (Raise e, c') => (Raise e, c')
  end.

Definition raise {A} (e : exn) : py A := λ c, (Raise e, c).

(** [for x in l: body] *)
Fixpoint for_each {A} (l : list A) (body : A → py unit) : py unit :=
  match l with
  | [] => mret tt
  | x :: l' => body x ;; for_each l' body
  end.

(** [int(x)] and [float(x)] raise TypeError on None. *)
Definition int (x : option Z) : py Z :=
  match x with
  | Some n => mret n
  | None => raise TypeError
  end.

Definition float (x : option Qc) : py Qc :=
  match x with
  | Some q => mret q
  | None => raise TypeError
  end.

(** [float(n)] at an integer column. *)
Definition float_of_int (x : option Z) : py Qc :=
  match x with
  | Some n => mret (Qc_of_Z n)
  | None => raise TypeError
  end.

(** [x or 0]: the value of [x] when it is truthy, else 0. *)
Definition or_0 (x : option Qc) : option Qc :=
  match x with
  | Some q => if decide (q = 0%Qc) then Some 0%Qc else Some q
  | None => Some 0%Qc
  end.

Definition int_or_0 (x : option Z) : option Z :=
  match x with
  | Some n => if decide (n = 0) then Some 0 else Some n
  | None => Some 0
  end.

(** [s[:n]] *)
Definition slice_to (n : nat) (s : string) : string := substring 0 n s.

(** [str(x)] of an integer or None, as an f-string field prints it. *)
Definition str_int (x : option Z) : string :=
  match x with
  | Some n => NilZero.string_of_int (Z.to_int n)
  | None => "None"
  end.

Definition str_text (x : option string) : string := default "None" x.

(** One call into the storage engine. *)
Definition storage_call {A} (op : connection → A * connection) : py A := λ c,
  let tick c' :=
    Connection (file c') (uncommitted c') (S (calls c')) (fail_at c') (clock c') in
  if decide (fail_at c = Some (calls c)) then (Raise OperationalError, tick c)
  else let '(a, c') := op c in (Ok a, tick c').

Definition with_uncommitted (c : connection) (t : MemberFlows.table) : connection :=
  Connection (file c) (Some t) (calls c) (fail_at c) (clock c).

(** [cur.execute("DELETE FROM member_flows")] *)
Definition execute_delete_member_flows : py unit :=
  storage_call (λ c,
    (tt, with_uncommitted c (MemberFlows.Table [] (MemberFlows.seq (view c))))).

(** [cur.execute("INSERT INTO member_flows (...) VALUES (...)", v)] *)
Definition execute_insert_member_flows (v : MemberFlows.values) : py unit :=
  storage_call (λ c,
    let t := view c in
    let i := MemberFlows.seq t + 1 in
    (tt, with_uncommitted c
           (MemberFlows.Table
              (MemberFlows.rows t ++ [MemberFlows.stored i (clock c (calls c)) v])
              i))).

(** [cur.execute("SELECT ...")] followed by [cur.fetchall()]. *)
Definition execute_select {A} (query : database → list A) : py (list A) :=
  storage_call (λ c, (query (file c), c)).

(** [conn.commit()] *)
Definition commit : py unit :=
  storage_call (λ c,
    let f := file c in
    (tt, Connection
           (Database (donations f) (contracts f) (industry_jobs f)
                     (market_orders f) (view c))
           None (calls c) (fail_at c) (clock c))).

(** ** [rebuild_member_flows] *)

Definition is_None {A} (x : option A) : bool :=
  match x with
  | None => true
  | Some _ => false
  end.

(** The five SELECT statements of the rebuild: the WHERE clause as a
    filter, the column list as a projection. Rows come in table order. *)

Definition select_donations (db : database)
  : list (option Z * option Z * option Qc * option string) :=
  (λ d, (Donations.character_id d, Donations.journal_esi_id d,
         Donations.amount d, Donations.description d)) <$> donations db.

Definition select_contracts_in (db : database)
  : list (option Z * option Z * option Qc) :=
  (λ k, (Contracts.contract_id k, Contracts.issuer_id k,
         Contracts.janice_immediate_split k)) <$>
  filter (λ k, SQL.holds
    (SQL.AND (SQL.AND
       (SQL.OR (SQL.IS_NULL (Contracts.price k)) (SQL.EQ (Contracts.price k) 0%Qc))
       (SQL.EQ (Contracts.status k) "finished"))
       (SQL.IS_NOT_NULL (Contracts.janice_immediate_split k))))
    (contracts db).

Definition select_contracts_out (db : database)
  : list (option Z * option Z * option Qc * option Qc) :=
  (λ k, (Contracts.contract_id k, Contracts.assignee_id k,
         Contracts.janice_immediate_split k, Contracts.price k)) <$>
  filter (λ k, SQL.holds
    (SQL.AND (SQL.AND (SQL.AND
       (SQL.EQ (Contracts.for_corporation k) 1)
       (SQL.IS_NOT_NULL (Contracts.price k)))
       (SQL.EQ (Contracts.status k) "finished"))
       (SQL.IS_NOT_NULL (Contracts.janice_immediate_split k))))
    (contracts db).

Definition select_industry_jobs (db : database)
  : list (option Z * option Z * option Z * option Z * option Qc * option string) :=
  (λ j, (IndustryJobs.job_id j, IndustryJobs.installer_id j,
         IndustryJobs.product_type_id j, IndustryJobs.runs j,
         IndustryJobs.cost j, IndustryJobs.status j)) <$>
  filter (λ j, SQL.holds
    (SQL.AND (SQL.AND
       (SQL.EQ (IndustryJobs.status j) "delivered")
       (SQL.IS_NOT_NULL (IndustryJobs.cost j)))
       (SQL.IS_NOT_NULL (IndustryJobs.installer_id j))))
    (industry_jobs db).

Definition select_market_orders (db : database)
  : list (option Z * option Z * option Qc * option Z * option Z * option Z
          * option string) :=
  (λ o, (MarketOrders.order_id o, MarketOrders.issued_by o,
         MarketOrders.price o, MarketOrders.volume_total o,
         MarketOrders.volume_remain o, MarketOrders.is_buy_order o,
         MarketOrders.state o)) <$>
  filter (λ o, SQL.holds
    (SQL.AND (SQL.AND (SQL.AND
       (SQL.EQ (MarketOrders.is_history o) 1)
       (SQL.EQ (MarketOrders.is_buy_order o) 0))
       (SQL.IS_NOT_NULL (MarketOrders.issued_by o)))
       (SQL.IS_NOT_NULL (MarketOrders.price o))))
    (market_orders db).

Section Rebuild.

(** [str(x)] of a float inside an f-string: the text of the notes of
    market rows depends on it and on nothing else of float printing. *)
Variable str_float : Qc → string.

Definition rebuild_member_flows : py unit :=
  execute_delete_member_flows ;;
  (* Wallet donations -> flows (value in) *)
  rows ← execute_select select_donations;
  for_each rows (λ '(char_id, journal_id, amount, desc),
    if is_None char_id || is_None amount then mret tt
    else
      m ← int char_id;
      v ← float amount;
      execute_insert_member_flows
        (MemberFlows.Values m "in" "wallet" None journal_id v
           (slice_to 200 (default "" desc)))) ;;
  (* Member -> Corp donation contracts (value in) *)
  rows ← execute_select select_contracts_in;
  for_each rows (λ '(contract_id, issuer_id, val),
    if is_None issuer_id || is_None val then mret tt
    else
      m ← int issuer_id;
      v ← float val;
      execute_insert_member_flows
        (MemberFlows.Values m "in" "contract_in" contract_id None v
           "Donation contract to corp")) ;;
  (* Corp -> Member subsidies (value out) *)
  rows ← execute_select select_contracts_out;
  for_each rows (λ '(contract_id, assignee_id, val, price),
    if is_None assignee_id || is_None val then mret tt
    else
      v ← float val;
      p ← float (or_0 price);
      let subsidy := (v - p)%Qc in
      if bool_decide (subsidy ≤ 0)%Qc then mret tt
      else
        m ← int assignee_id;
        execute_insert_member_flows
          (MemberFlows.Values m "out" "contract_out" contract_id None subsidy
             "Corp subsidy / payout") ;;
        m' ← int assignee_id;
        tenth ← float (Some (Q2Qc (1 # 10)));
        execute_insert_member_flows
          (MemberFlows.Values m' "in" "contract_out_subsidy" contract_id None
             (subsidy * tenth)%Qc "Corp Discount Credit")) ;;
  (* Industry manufacturing jobs (value in for installers) *)
  rows ← execute_select select_industry_jobs;
  for_each rows (λ '(job_id, installer_id, product_type_id, runs, cost, status),
    let note := "Industry job " +:+ str_int job_id +:+ ", type "
                +:+ str_int product_type_id +:+ ", runs " +:+ str_int runs in
    m ← int installer_id;
    v ← float cost;
    execute_insert_member_flows
      (MemberFlows.Values m "in" "industry" None None v (slice_to 200 note))) ;;
  (* Market order sales (1% of realized sell value credited to issuer) *)
  rows ← execute_select select_market_orders;
  for_each rows
    (λ '(order_id, issued_by, price, volume_total, volume_remain, is_buy_order,
         state),
    if is_None volume_total then mret tt
    else
      total ← float_of_int volume_total;
      remain ← float_of_int (int_or_0 volume_remain);
      let sold_volume := (total - remain)%Qc in
      if bool_decide (sold_volume ≤ 0)%Qc then mret tt
      else
        p ← float price;
        let sale_value := (sold_volume * p)%Qc in
        let credit := (sale_value * Q2Qc (1 # 100))%Qc in
        let note := "Market sell order " +:+ str_int order_id +:+ ", state "
                    +:+ str_text state +:+ ", sold " +:+ str_float sold_volume
                    +:+ " @ " +:+ str_float p in
        m ← int issued_by;
        execute_insert_member_flows
          (MemberFlows.Values m "in" "market" None None credit
             (slice_to 200 note))) ;;
  commit.

End Rebuild.

(** ** What each rule inserts for one source row *)

Definition donation_flows (d : Donations.row) : list MemberFlows.values :=
  match Donations.character_id d, Donations.amount d with
  | Some m, Some a =>
      [MemberFlows.Values m "in" "wallet" None (Donations.journal_esi_id d) a
         (slice_to 200 (default "" (Donations.description d)))]
  | _, _ => []
  end.

Definition donation_contract (k : Contracts.row) : bool :=
  match Contracts.price k, Contracts.status k, Contracts.janice_immediate_split k with
  | None, Some s, Some _ => bool_decide (s = "finished")
  | Some p, Some s, Some _ => bool_decide (p = 0%Qc) && bool_decide (s = "finished")
  | _, _, _ => false
  end.

Definition contract_in_flows (k : Contracts.row) : list MemberFlows.values :=
  if donation_contract k then
    match Contracts.issuer_id k, Contracts.janice_immediate_split k with
    | Some m, Some v =>
        [MemberFlows.Values m "in" "contract_in" (Contracts.contract_id k) None v
           "Donation contract to corp"]
    | _, _ => []
    end
  else [].

Definition contract_out_flows (k : Contracts.row) : list MemberFlows.values :=
  match Contracts.for_corporation k, Contracts.price k, Contracts.status k,
        Contracts.janice_immediate_split k, Contracts.assignee_id k with
  | Some fc, Some p, Some s, Some v, Some m =>
      if bool_decide (fc = 1) && bool_decide (s = "finished")
         && negb (bool_decide (v - p ≤ 0)%Qc)
      then
        [MemberFlows.Values m "out" "contract_out" (Contracts.contract_id k) None
           (v - p)%Qc "Corp subsidy / payout";
         MemberFlows.Values m "in" "contract_out_subsidy" (Contracts.contract_id k)
           None ((v - p) * Q2Qc (1 # 10))%Qc "Corp Discount Credit"]
      else []
  | _, _, _, _, _ => []
  end.

Definition industry_flows (j : IndustryJobs.row) : list MemberFlows.values :=
  match IndustryJobs.status j, IndustryJobs.cost j, IndustryJobs.installer_id j with
  | Some s, Some v, Some m =>
      if bool_decide (s = "delivered") then
        [MemberFlows.Values m "in" "industry" None None v
           (slice_to 200
              ("Industry job " +:+ str_int (IndustryJobs.job_id j) +:+ ", type "
               +:+ str_int (IndustryJobs.product_type_id j) +:+ ", runs "
               +:+ str_int (IndustryJobs.runs j)))]
      else []
  | _, _, _ => []
  end.

(** [total - remain] with a NULL [volume_remain] read as 0. *)
Definition sold (total : Z) (remain : option Z) : Qc :=
  (Qc_of_Z total - Qc_of_Z (default 0%Z remain))%Qc.

Definition market_flows (str_float : Qc → string) (o : MarketOrders.row)
  : list MemberFlows.values :=
  match MarketOrders.is_history o, MarketOrders.is_buy_order o,
        MarketOrders.issued_by o, MarketOrders.price o,
        MarketOrders.volume_total o with
  | Some h, Some b, Some m, Some p, Some total =>
      let s := sold total (MarketOrders.volume_remain o) in
      if bool_decide (h = 1) && bool_decide (b = 0) && negb (bool_decide (s ≤ 0)%Qc)
      then
        [MemberFlows.Values m "in" "market" None None (s * p * Q2Qc (1 # 100))%Qc
           (slice_to 200
              ("Market sell order " +:+ str_int (MarketOrders.order_id o)
               +:+ ", state " +:+ str_text (MarketOrders.state o) +:+ ", sold "
               +:+ str_float s +:+ " @ " +:+ str_float p))]
      else []
  | _, _, _, _, _ => []
  end.

(** The contents of the ledger a complete rebuild writes, in insertion
    order. *)
Definition derived_flows (str_float : Qc → string) (db : database)
  : list MemberFlows.values :=
  (donations db ≫= donation_flows)
  ++ (contracts db ≫= contract_in_flows)
  ++ (contracts db ≫= contract_out_flows)
  ++ (industry_jobs db ≫= industry_flows)
  ++ (market_orders db ≫= market_flows str_float).

(** The file with [member_flows] replaced. *)
Definition with_member_flows (db : database) (t : MemberFlows.table) : database :=
  Database (donations db) (contracts db) (industry_jobs db) (market_orders db) t.

(** [t'] is [t] with rows of contents [vs] appended under fresh ids. *)
Definition extends (t t' : MemberFlows.table) (vs : list MemberFlows.values)
  : Prop :=
  ∃ new,
    MemberFlows.rows t' = MemberFlows.rows t ++ new
    ∧ MemberFlows.content <$> new = vs
    ∧ MemberFlows.id <$> new = seqZ (MemberFlows.seq t + 1) (Z.of_nat (length vs))
    ∧ MemberFlows.seq t' = MemberFlows.seq t + Z.of_nat (length vs).

(** Inside a transaction on file [db], [m] either appends [vs] and
    returns, or raises a storage error, the file untouched either way. *)
Definition emits (db : database) (m : py unit) (vs : list MemberFlows.values)
  : Prop :=
  ∀ c t, file c = db → uncommitted c = Some t →
    match m c with
    | (Ok _, c') =>
        file c' = db ∧ fail_at c' = fail_at c ∧ clock c' = clock c
        ∧ ∃ t', uncommitted c' = Some t' ∧ extends t t' vs
    | (Raise e, c') =>
        file c' = db ∧ e = OperationalError ∧ is_Some (fail_at c)
    end.

(** Inside a transaction on file [db], [m] either appends [vs], commits
    and returns, or raises a storage error with the file untouched. *)
Definition commits (db : database) (m : py unit) (vs : list MemberFlows.values)
  : Prop :=
  ∀ c t, file c = db → uncommitted c = Some t →
    match m c with
    | (Ok _, c') =>
        uncommitted c' = None ∧ fail_at c' = fail_at c ∧ clock c' = clock c
        ∧ ∃ t', file c' = with_member_flows db t' ∧ extends t t' vs
    | (Raise e, c') =>
        file c' = db ∧ e = OperationalError ∧ is_Some (fail_at c)
    end.

(** The rebuild from any connection: a complete run replaces the ledger
    by the derived flows under fresh ids and commits; a run that raises
    was stopped by a storage failure and leaves the file as it was. *)
Definition rebuilt (str_float : Qc → string) (c : connection)
    (r : outcome unit * connection) : Prop :=
  match r with
  | (Ok _, c') =>
      uncommitted c' = None ∧ fail_at c' = fail_at c ∧ clock c' = clock c
      ∧ ∃ t', file c' = with_member_flows (file c) t'
              ∧ extends (MemberFlows.Table [] (MemberFlows.seq (view c))) t'
                  (derived_flows str_float (file c))
  | (Raise e, c') =>
      file c' = file c ∧ e = OperationalError ∧ is_Some (fail_at c)
  end.


(** ** [cmd_sync_flows]

    [init_db] opens the connection on the file (its CREATE TABLE IF NOT
    EXISTS statements leave the rows alone), the rebuild runs, and the
    process ends: an exception that escapes [main] ends it without a
    commit, so what stays is the committed file. *)

Definition connect (db : database) (fail_at : option nat) (clock : nat → string)
  : connection :=
  Connection db None 0 fail_at clock.

Definition cmd_sync_flows (str_float : Qc → string) (db : database)
    (fail_at : option nat) (clock : nat → string) : outcome unit * database :=
  let '(r, c) := rebuild_member_flows str_float (connect db fail_at clock) in
  (r, file c).

(** The committed ledger without ids and timestamps. *)
Definition ledger (db : database) : list MemberFlows.values :=
  MemberFlows.content <$> MemberFlows.rows (member_flows db).

(** ** Aggregation: [get_flow_totals], [get_member_net_values] *)

(** A SELECT on [member_flows], which sees the connection's own view. *)
Definition execute_select_flows {A} (query : list MemberFlows.row → A) : py A :=
  storage_call (λ c, (query (MemberFlows.rows (view c)), c)).

(** [CASE WHEN direction = d THEN value_isk ELSE 0 END] *)
Definition case_direction (d : string) (r : MemberFlows.row) : Qc :=
  if decide (MemberFlows.direction r = d) then MemberFlows.value_isk r else 0%Qc.

Definition select_flow_totals (t : list MemberFlows.row) : option Qc * option Qc :=
  (Some (SQL.COALESCE (SQL.SUM (case_direction "in" <$> t)) 0%Qc),
   Some (SQL.COALESCE (SQL.SUM (case_direction "out" <$> t)) 0%Qc)).

Definition get_flow_totals : py (Qc * Qc * Qc) :=
  '(total_in, total_out) ← execute_select_flows select_flow_totals;
  total_in ← float (or_0 total_in);
  total_out ← float (or_0 total_out);
  let net := (total_in - total_out)%Qc in
  mret (total_in, total_out, net).



(** A [for] loop that updates a local variable. *)
Fixpoint for_each_acc {A S} (l : list A) (s : S) (body : A → S → py S) : py S :=
  match l with
  | [] => mret s
  | x :: l' => s' ← body x s; for_each_acc l' s' body
  end.


(** ** [cmd_dashboard] and [load_config] *)

Definition SHARE_UNIT_ISK : Z := 1000000000.

(** The [custom] fields of [ESIConfig] that hold numbers. *)
Record ESIConfig := {
  custom_share_unit_isk : Z;
  custom_alert_threshold : Z }.

(** The [custom:] section of config.yaml, absent or a mapping from option
    names to numbers. *)
Definition load_config (custom : option (gmap string Z)) : ESIConfig :=
  let custom_raw := default ∅ custom in
  {| custom_share_unit_isk := default 1000000000 (custom_raw !! "share_unit_isk");
     custom_alert_threshold := default 50000000 (custom_raw !! "alert_threshold") |}.

(** [x / n] raises ZeroDivisionError at [n = 0]. *)
Definition truediv (x : Qc) (n : Z) : py Qc :=
  if decide (n = 0) then raise ZeroDivisionError else mret (x / Qc_of_Z n)%Qc.

(** The four numbers the dashboard prints: total in, total out, net and
    implied total shares. *)
Definition cmd_dashboard (cfg : ESIConfig) : py (Qc * Qc * Qc * Qc) :=
  '(total_in, total_out, net) ← get_flow_totals;
  total_shares ← (if bool_decide (SHARE_UNIT_ISK > 0) then truediv net SHARE_UNIT_ISK
                  else mret 0%Qc);
  mret (total_in, total_out, net, total_shares).

(** ** The aggregates in the words of the specification *)

(** Sum of the values of the records with direction [d]. *)
Definition total_of (d : string) (t : list MemberFlows.row) : Qc :=
  foldr Qcplus 0%Qc
    (MemberFlows.value_isk <$> filter (λ r, MemberFlows.direction r = d) t).



(** Two databases hold the same source rows, whatever the scan order of
    their tables and whatever their ledgers. *)
Definition same_sources (db db' : database) : Prop :=
  donations db ≡ₚ donations db'
  ∧ contracts db ≡ₚ contracts db'
  ∧ industry_jobs db ≡ₚ industry_jobs db'
  ∧ market_orders db ≡ₚ market_orders db'.

(** The ids in a table respect its AUTOINCREMENT counter. *)
Definition ids_bounded (t : MemberFlows.table) : Prop :=
  ∀ r, r ∈ MemberFlows.rows t → MemberFlows.id r ≤ MemberFlows.seq t.

(** ** Sample data *)

Definition sample_clock : nat → string := λ _, "2025-11-22 17:05:00".

Definition sample_str_float : Qc → string := λ _, "?".

(** Two donations (one without a member), the contracts of the subsidy
    pair and of the donation in kind, a delivered job and a historical
    sell order. *)
Definition sample_db : database :=
  Database
    [Donations.Row (Some 11) (Some 7) (Some (Qc_of_Z 500)) (Some "thanks");
     Donations.Row (Some 12) None (Some (Qc_of_Z 9)) None]
    [Contracts.Row (Some 1) (Some 7) (Some 8) (Some "finished") (Some 1)
       (Some (Qc_of_Z 100)) (Some (Qc_of_Z 150));
     Contracts.Row (Some 2) (Some 7) (Some 8) (Some "finished") (Some 0)
       (Some (Qc_of_Z 0)) (Some (Qc_of_Z 1000000))]
    [IndustryJobs.Row (Some 5) (Some 9) (Some 34) (Some 2) (Some (Qc_of_Z 77))
       (Some "delivered")]
    [MarketOrders.Row (Some 3) (Some 100) (Some 20) (Some (Qc_of_Z 1000))
       (Some 0) (Some 7) (Some "expired") (Some 1)]
    (MemberFlows.Table [] 0).

Definition sample_connection : connection :=
  connect sample_db None sample_clock.



(** A donation row with a negative amount. *)
Definition negative_donation_db : database :=
  Database [Donations.Row (Some 11) (Some 7) (Some (Qc_of_Z (-5))) None]
    [] [] [] (MemberFlows.Table [] 0).

(** A ledger with one inflow of 2,000,000,000. *)
Definition two_billion_db : database :=
  Database [] [] [] []
    (MemberFlows.Table
       [MemberFlows.Row 1 7 "in" "wallet" None (Some 11)
          (Qc_of_Z 2000000000) "2025-11-22 17:05:00" ""] 1).


(** ** Storage calls of a run *)

(** On file [db], [m] makes [n] storage calls and leaves the file as it
    is: it returns when the failing call, if any, is not among them, and
    raises when it is. *)
Definition makes_calls (db : database) (m : py unit) (n : nat) : Prop :=
  ∀ c, file c = db →
    match m c with
    | (Ok _, c') =>
        file c' = db ∧ fail_at c' = fail_at c ∧ calls c' = (calls c + n)%nat
        ∧ ∀ k, fail_at c = Some k → (k < calls c ∨ calls c + n ≤ k)%nat
    | (Raise _, c') =>
        ∃ k, fail_at c = Some k ∧ (calls c ≤ k < calls c + n)%nat
    end.

(** The same for a run that ends with a commit, which changes the file. *)
Definition ends_after (db : database) (m : py unit) (n : nat) : Prop :=
  ∀ c, file c = db →
    match m c with
    | (Ok _, c') =>
        fail_at c' = fail_at c ∧ calls c' = (calls c + n)%nat
        ∧ ∀ k, fail_at c = Some k → (k < calls c ∨ calls c + n ≤ k)%nat
    | (Raise _, c') =>
        ∃ k, fail_at c = Some k ∧ (calls c ≤ k < calls c + n)%nat
    end.

(** ** [update_donations_from_journal] *)

Module WalletJournal.

(** What [json.loads(raw_json)] holds under the keys the code reads;
    [raw_json] is the [json.dumps] of the journal entry that
    [sync_wallet_journal] stored. A key that is missing or null reads as
    None with [data.get]. *)
Record entry := Entry {
  first_party_id : option Z;
  amount : option Qc;
  reason : option string;
  description : option string }.

(** The columns of [wallet_journal] the SELECT reads. *)
Record row := Row {
  esi_id : option Z;
  ref_type : option string;
  raw_json : entry }.

End WalletJournal.

(** [x NOT IN (SELECT ...)]: true on an empty result; NULL when [x] is
    NULL; false when [x] is among the values; NULL when it is not but a
    NULL is; else true. *)
Definition NOT_IN {A} `{EqDecision A} (x : option A) (l : list (option A))
  : SQL.cond :=
  match l with
  | [] => Some true
  | _ =>
      match x with
      | None => None
      | Some a =>
          if decide (Some a ∈ l) then Some false
          else if decide (None ∈ l) then None
          else Some true
      end
  end.

(** [x or y] at a text [x] that may be None: [x] when it is a non-empty
    text, else [y]. *)
Definition or_text (x : option string) (y : string) : string :=
  match x with
  | Some s => if decide (s = "") then y else s
  | None => y
  end.

(** The journal references of the donations:
    [SELECT journal_esi_id FROM donations]. *)
Definition journal_ids (t : list Donations.row) : list (option Z) :=
  Donations.journal_esi_id <$> t.

Definition select_new_donations (journal : list WalletJournal.row)
    (t : list Donations.row) : list (option Z * WalletJournal.entry) :=
  (λ r, (WalletJournal.esi_id r, WalletJournal.raw_json r)) <$>
  filter (λ r, SQL.holds
    (SQL.AND (SQL.EQ (WalletJournal.ref_type r) "player_donation")
             (NOT_IN (WalletJournal.esi_id r) (journal_ids t))))
    journal.

(** [INSERT INTO donations (journal_esi_id, character_id, amount,
    description)]: [journal_esi_id] is UNIQUE, so a second row with the
    same non-null reference is refused with sqlite3.IntegrityError
    (None). *)
Definition insert_donation (t : list Donations.row) (d : Donations.row)
  : option (list Donations.row) :=
  match Donations.journal_esi_id d with
  | Some j => if decide (Some j ∈ journal_ids t) then None else Some (t ++ [d])
  | None => Some (t ++ [d])
  end.

(** The loop of [update_donations_from_journal] over the selected rows. *)
Fixpoint insert_donations (rows : list (option Z * WalletJournal.entry))
    (t : list Donations.row) : option (list Donations.row) :=
  match rows with
  | [] => Some t
  | (esi_id, data) :: rows' =>
      let character_id := WalletJournal.first_party_id data in
      let amount := WalletJournal.amount data in
      let desc :=
        or_text (WalletJournal.reason data)
          (or_text (WalletJournal.description data) "") in
      t' ← insert_donation t (Donations.Row esi_id character_id amount (Some desc));
      insert_donations rows' t'
  end.

(** The donations table that [update_donations_from_journal] commits, or
    None when an INSERT raises: the exception escapes before
    [conn.commit()], and the file keeps the table it had. *)
Definition update_donations_from_journal (journal : list WalletJournal.row)
    (t : list Donations.row) : option (list Donations.row) :=
  let rows := select_new_donations journal t in
  insert_donations rows t.

(** The donation that the loop derives from a journal row. *)
Definition donation_of (r : WalletJournal.row) : Donations.row :=
  let data := WalletJournal.raw_json r in
  Donations.Row (WalletJournal.esi_id r) (WalletJournal.first_party_id data)
    (WalletJournal.amount data)
    (Some (or_text (WalletJournal.reason data)
             (or_text (WalletJournal.description data) ""))).

(** The file with [donations] replaced. *)
Definition with_donations (db : database) (t : list Donations.row) : database :=
  Database t (contracts db) (industry_jobs db) (market_orders db) (member_flows db).

(** ** [get_recent_member_flows] and the lines of [cmd_report_flows] *)

Module Flow.
(** The dict that [get_recent_member_flows] builds for a row. *)
Record dict := Dict {
  id : Z;
  character_id : Z;
  direction : string;
  source : string;
  value_isk : Qc;
  created_at : string;
  note : string }.
End Flow.

(** Order of two TEXT or NULL values under the BINARY collation: NULL
    comes first, texts compare character by character. *)
Definition text_compare (a b : option string) : comparison :=
  match a, b with
  | None, None => Eq
  | None, Some _ => Lt
  | Some _, None => Gt
  | Some x, Some y => String.compare x y
  end.

(** [LIMIT n]: a negative [n] is no limit. *)
Definition LIMIT {A} (n : Z) (l : list A) : list A :=
  if decide (n < 0) then l else take (Z.to_nat n) l.

Section Recent.

(** SQLite's [datetime(text)], NULL on a text that is no date. *)
Variable datetime : string → option string.

(** [a] is listed no later than [b] under
    [ORDER BY datetime(created_at) DESC, id DESC]. *)
Definition precedes (a b : MemberFlows.row) : bool :=
  match text_compare (datetime (MemberFlows.created_at a))
                     (datetime (MemberFlows.created_at b)) with
  | Gt => true
  | Lt => false
  | Eq => bool_decide (MemberFlows.id b ≤ MemberFlows.id a)
  end.

Fixpoint insert_sorted (r : MemberFlows.row) (l : list MemberFlows.row)
  : list MemberFlows.row :=
  match l with
  | [] => [r]
  | x :: l' => if precedes r x then r :: l else x :: insert_sorted r l'
  end.

(** The rows in the order of the ORDER BY clause; [id] is the primary
    key, so no two rows of a table tie. *)
Definition order_by (t : list MemberFlows.row) : list MemberFlows.row :=
  foldr insert_sorted [] t.

Definition select_recent_flows (limit : Z) (t : list MemberFlows.row)
  : list (Z * Z * string * string * Qc * string * string) :=
  (λ r, (MemberFlows.id r, MemberFlows.character_id r, MemberFlows.direction r,
         MemberFlows.source r, MemberFlows.value_isk r,
         MemberFlows.created_at r, MemberFlows.note r)) <$>
  LIMIT limit (order_by t).

Definition get_recent_member_flows (limit : Z) : py (list Flow.dict) :=
  rows ← execute_select_flows (select_recent_flows limit);
  for_each_acc rows []
    (λ '(rid, char_id, direction, source, value_isk, created_at, note) result,
      v ← float (or_0 (Some value_isk));
      mret (result ++ [Flow.Dict rid char_id direction source v created_at
                         (or_text (Some note) "")])).

End Recent.

(** The dict of a row. *)
Definition dict_of (r : MemberFlows.row) : Flow.dict :=
  Flow.Dict (MemberFlows.id r) (MemberFlows.character_id r)
    (MemberFlows.direction r) (MemberFlows.source r) (MemberFlows.value_isk r)
    (MemberFlows.created_at r) (MemberFlows.note r).

(** [s.replace(old, new)] at one-character [old] and [new]. *)
Fixpoint replace (old new : Ascii.ascii) (s : string) : string :=
  match s with
  | EmptyString => EmptyString
  | String a s' => String (if Ascii.eqb a old then new else a) (replace old new s')
  end.

(** [a in s] at a one-character [a]. *)
Fixpoint contains (a : Ascii.ascii) (s : string) : bool :=
  match s with
  | EmptyString => false
  | String b s' => Ascii.eqb b a || contains a s'
  end.

(** The timestamp that a line of [cmd_report_flows] shows: trimmed to
    "YYYY-MM-DD HH:MM". *)
Definition created_disp (created : string) : string :=
  if negb (String.eqb created "") && contains "T"%char created
  then slice_to 16 (replace "T"%char " "%char created)
  else slice_to 16 created.

(** The note that a line of [cmd_report_flows] shows. *)
Definition report_note (note : string) : string :=
  if decide (80 < String.length note)%nat then slice_to 77 note +:+ "..."
  else note.

(** A wallet journal with two player donations, the second without a
    reason, and a bounty payment. *)
Definition sample_journal : list WalletJournal.row :=
  [WalletJournal.Row (Some 11) (Some "player_donation")
     (WalletJournal.Entry (Some 7) (Some (Qc_of_Z 500)) (Some "thanks") (Some "x"));
   WalletJournal.Row (Some 12) (Some "bounty_prizes")
     (WalletJournal.Entry (Some 8) (Some (Qc_of_Z 40)) None None);
   WalletJournal.Row (Some 13) (Some "player_donation")
     (WalletJournal.Entry (Some 9) (Some (Qc_of_Z 9)) (Some "")
        (Some "Nine deposited"))].

(** Rows of one second and of the second after it. *)
Definition sample_rows : list MemberFlows.row :=
  [MemberFlows.Row 1 7 "in" "wallet" None (Some 11) (Qc_of_Z 500)
     "2025-11-22 17:05:00" "thanks";
   MemberFlows.Row 2 8 "out" "contract_out" (Some 1) None (Qc_of_Z 50)
     "2025-11-22 17:05:01" "Corp subsidy / payout";
   MemberFlows.Row 3 8 "in" "contract_out_subsidy" (Some 1) None (Qc_of_Z 5)
     "2025-11-22 17:05:01" "Corp Discount Credit"].

(** ** [sync_wallet_journal] and [cmd_sync_wallet] *)

Module ESI.

(** A wallet journal entry as ESI returns it: its [id], its [ref_type]
    and the fields that [update_donations_from_journal] reads back from
    [raw_json]. *)
Record journal_entry := JournalEntry {
  id : Z;
  ref_type : option string;
  fields : WalletJournal.entry }.

(** What [esi.get(path, params={"page": page})] gives: an exception of
    [requests], or the decoded list with the number in the X-Pages
    header, if there is one. *)
Inductive response :=
| Failed
| Page (data : list journal_entry) (x_pages : option Z).

End ESI.

(** How a command ended, with the committed tables it left: it returned,
    or an exception escaped it. *)
Inductive ended (F : Type) :=
| Returned (f : F)
| Raised (f : F).
Arguments Returned {F} f.
Arguments Raised {F} f.

(** The row that the INSERT of [sync_wallet_journal] writes. *)
Definition journal_row (e : ESI.journal_entry) : WalletJournal.row :=
  WalletJournal.Row (Some (ESI.id e)) (ESI.ref_type e) (ESI.fields e).

(** The body of the loop over a page: an entry whose id is in the table
    is skipped. *)
Definition insert_journal_entry (t : list WalletJournal.row)
    (e : ESI.journal_entry) : list WalletJournal.row :=
  if decide (Some (ESI.id e) ∈ WalletJournal.esi_id <$> t) then t
  else t ++ [journal_row e].

Section SyncWallet.

Variable esi_get : Z → ESI.response.

(** The [while True] loop from [page] on, run for at most [fuel] pages;
    [t] is the table as the connection sees it. A request that raises
    ends the command before [conn.commit()]. *)
Fixpoint sync_pages (fuel : nat) (page : Z) (t0 t : list WalletJournal.row)
  : option (ended (list WalletJournal.row)) :=
  match fuel with
  | O => None
  | S fuel' =>
      match esi_get page with
      | ESI.Failed => Some (Raised t0)
      | ESI.Page [] _ => Some (Returned t)
      | ESI.Page data x_pages =>
          let t' := foldl insert_journal_entry t data in
          match x_pages with
          | None => Some (Returned t')
          | Some n =>
              if decide (page >= n) then Some (Returned t')
              else sync_pages fuel' (page + 1) t0 t'
          end
      end
  end.

Definition sync_wallet_journal (fuel : nat) (t : list WalletJournal.row)
  : option (ended (list WalletJournal.row)) :=
  sync_pages fuel 1 t t.

(** [cmd_sync_wallet]: the journal is committed before the donations
    are derived. *)
Definition cmd_sync_wallet (fuel : nat) (journal : list WalletJournal.row)
    (donations : list Donations.row)
  : option (ended (list WalletJournal.row * list Donations.row)) :=
  match sync_wallet_journal fuel journal with
  | None => None
  | Some (Raised j) => Some (Raised (j, donations))
  | Some (Returned j) =>
      match update_donations_from_journal j donations with
      | Some d => Some (Returned (j, d))
      | None => Some (Raised (j, donations))
      end
  end.

(** An entry that some page of ESI holds. *)
Definition served (e : ESI.journal_entry) : Prop :=
  ∃ page data x_pages, esi_get page = ESI.Page data x_pages ∧ e ∈ data.

(** [t'] is [t] followed by rows of served entries with fresh, distinct
    ids. *)
Definition grows (t t' : list WalletJournal.row) : Prop :=
  ∃ new,
    t' = t ++ new
    ∧ (∀ r, r ∈ new → ∃ e, served e ∧ r = journal_row e)
    ∧ NoDup (WalletJournal.esi_id <$> new)
    ∧ (∀ r, r ∈ new → WalletJournal.esi_id r ∉ WalletJournal.esi_id <$> t).

End SyncWallet.

(** The tables that a command left committed. *)
Definition committed {F} (r : ended F) : F :=
  match r with
  | Returned f => f
  | Raised f => f
  end.

(** ** [sync_industry_jobs] *)

Module ESIJobs.

(** An industry job as ESI returns it, with the fields that the rebuild
    later reads. *)
Record job := Job {
  job_id : Z;
  installer_id : option Z;
  product_type_id : option Z;
  runs : option Z;
  cost : option Qc;
  status : option string }.

(** What [esi.get] gives for a page of jobs: [requests.HTTPError], which
    the loop catches, another exception, or the decoded list with the
    number in the X-Pages header. *)
Inductive response :=
| HTTPError
| OtherError
| Page (data : list job) (x_pages : option Z).

End ESIJobs.

Definition job_row (e : ESIJobs.job) : IndustryJobs.row :=
  IndustryJobs.Row (Some (ESIJobs.job_id e)) (ESIJobs.installer_id e)
    (ESIJobs.product_type_id e) (ESIJobs.runs e) (ESIJobs.cost e)
    (ESIJobs.status e).

(** The body of the loop over a page: [if exists: continue]. *)
Definition insert_job (t : list IndustryJobs.row) (e : ESIJobs.job)
  : list IndustryJobs.row :=
  if decide (Some (ESIJobs.job_id e) ∈ IndustryJobs.job_id <$> t) then t
  else t ++ [job_row e].

Section SyncIndustry.

Variable esi_get : Z → ESIJobs.response.

(** The [while True] loop: an HTTPError ends the loop and what was read
    is committed; another exception escapes before the commit. *)
Fixpoint sync_job_pages (fuel : nat) (page : Z) (t0 t : list IndustryJobs.row)
  : option (ended (list IndustryJobs.row)) :=
  match fuel with
  | O => None
  | S fuel' =>
      match esi_get page with
      | ESIJobs.HTTPError => Some (Returned t)
      | ESIJobs.OtherError => Some (Raised t0)
      | ESIJobs.Page [] _ => Some (Returned t)
      | ESIJobs.Page data x_pages =>
          let t' := foldl insert_job t data in
          match x_pages with
          | None => Some (Returned t')
          | Some n =>
              if decide (page >= n) then Some (Returned t')
              else sync_job_pages fuel' (page + 1) t0 t'
          end
      end
  end.

Definition sync_industry_jobs (fuel : nat) (t : list IndustryJobs.row)
  : option (ended (list IndustryJobs.row)) :=
  sync_job_pages fuel 1 t t.

End SyncIndustry.

(** The file with [industry_jobs] replaced. *)
Definition with_industry_jobs (db : database) (t : list IndustryJobs.row)
  : database :=
  Database (donations db) (contracts db) t (market_orders db) (member_flows db).

(** ** [sync_contracts] *)

Module ESIContracts.

(** A contract as ESI returns it, with the fields that the rebuild later
    reads. *)
Record contract := Contract {
  contract_id : Z;
  issuer_id : option Z;
  assignee_id : option Z;
  status : option string;
  for_corporation : option bool;
  price : option Qc }.

(** What [esi.get] gives for a page of contracts: an exception, or the
    decoded list with the number in the X-Pages header. *)
Inductive response :=
| Failed
| Page (data : list contract) (x_pages : option Z).

(** How [sync_contract_items_for_contract] ends for a contract: its
    request raised [requests.HTTPError], which it catches and returns
    from without a commit; its request raised another exception, which
    escapes; or it stored the items and called [conn.commit()]. The items
    go to [contract_items], which the rebuild does not read. *)
Inductive items_sync :=
| ItemsHTTPError
| ItemsFailed
| ItemsCommitted.

End ESIContracts.

(** The row that the INSERT of [sync_contracts] writes:
    [int(row.get("for_corporation") or 0)] is 1 for true and 0 for false
    or missing, and [janice_immediate_split] is not among the columns, so
    it is NULL. *)
Definition contract_row (e : ESIContracts.contract) : Contracts.row :=
  Contracts.Row (Some (ESIContracts.contract_id e)) (ESIContracts.issuer_id e)
    (ESIContracts.assignee_id e) (ESIContracts.status e)
    (Some (match ESIContracts.for_corporation e with
           | Some true => 1
           | _ => 0
           end))
    (ESIContracts.price e) None.

(** [if not exists: INSERT] *)
Definition insert_contract (t : list Contracts.row) (e : ESIContracts.contract)
  : list Contracts.row :=
  if decide (Some (ESIContracts.contract_id e) ∈ Contracts.contract_id <$> t)
  then t else t ++ [contract_row e].

Section SyncContracts.

Variable esi_get : Z → ESIContracts.response.
Variable sync_contract_items_for_contract : Z → ESIContracts.items_sync.

(** The loop over the contracts of a page, on the committed table [f]
    and the table [t] as the connection sees it: the tables after the
    page, or the committed table at the exception that escapes. *)
Fixpoint sync_contract_rows (data : list ESIContracts.contract)
    (f t : list Contracts.row)
  : list Contracts.row * list Contracts.row + list Contracts.row :=
  match data with
  | [] => inl (f, t)
  | e :: data' =>
      let t' := insert_contract t e in
      match sync_contract_items_for_contract (ESIContracts.contract_id e) with
      | ESIContracts.ItemsHTTPError => sync_contract_rows data' f t'
      | ESIContracts.ItemsFailed => inr f
      | ESIContracts.ItemsCommitted => sync_contract_rows data' t' t'
      end
  end.

Fixpoint sync_contract_pages (fuel : nat) (page : Z) (f t : list Contracts.row)
  : option (ended (list Contracts.row)) :=
  match fuel with
  | O => None
  | S fuel' =>
      match esi_get page with
      | ESIContracts.Failed => Some (Raised f)
      | ESIContracts.Page [] _ => Some (Returned t)
      | ESIContracts.Page data x_pages =>
          match sync_contract_rows data f t with
          | inr f' => Some (Raised f')
          | inl (f', t') =>
              match x_pages with
              | None => Some (Returned t')
              | Some n =>
                  if decide (page >= n) then Some (Returned t')
                  else sync_contract_pages fuel' (page + 1) f' t'
              end
          end
      end
  end.

Definition sync_contracts (fuel : nat) (t : list Contracts.row)
  : option (ended (list Contracts.row)) :=
  sync_contract_pages fuel 1 t t.

End SyncContracts.

(** The file with [contracts] replaced. *)
Definition with_contracts (db : database) (t : list Contracts.row) : database :=
  Database (donations db) t (industry_jobs db) (market_orders db) (member_flows db).

(** A stored job that is running, and ESI reporting it as delivered. *)
Definition sample_stored_jobs : list IndustryJobs.row :=
  [IndustryJobs.Row (Some 5) (Some 9) (Some 34) (Some 2) (Some (Qc_of_Z 77))
     (Some "active")].

Definition sample_jobs_get (page : Z) : ESIJobs.response :=
  if decide (page = 1) then
    ESIJobs.Page
      [ESIJobs.Job 5 (Some 9) (Some 34) (Some 2) (Some (Qc_of_Z 77))
         (Some "delivered");
       ESIJobs.Job 6 (Some 9) (Some 35) (Some 1) (Some (Qc_of_Z 10))
         (Some "delivered")]
      (Some 1)
  else ESIJobs.HTTPError.

(** ESI reporting two finished contracts of the corporation on the first
    of two pages, and failing on the second. *)
Definition sample_contracts_get (page : Z) : ESIContracts.response :=
  if decide (page = 1) then
    ESIContracts.Page
      [ESIContracts.Contract 1 (Some 7) (Some 8) (Some "finished") (Some true)
         (Some (Qc_of_Z 100));
       ESIContracts.Contract 3 (Some 7) (Some 8) (Some "finished") (Some true)
         (Some (Qc_of_Z 0))]
      (Some 2)
  else ESIContracts.Failed.

(** Two pages of journal entries; the second repeats an entry of the
    first. *)
Definition sample_esi_get (page : Z) : ESI.response :=
  if decide (page = 1) then
    ESI.Page
      [ESI.JournalEntry 11 (Some "player_donation")
         (WalletJournal.Entry (Some 7) (Some (Qc_of_Z 500)) (Some "thanks") None);
       ESI.JournalEntry 12 (Some "bounty_prizes")
         (WalletJournal.Entry (Some 8) (Some (Qc_of_Z 40)) None None)]
      (Some 2)
  else if decide (page = 2) then
    ESI.Page
      [ESI.JournalEntry 11 (Some "player_donation")
         (WalletJournal.Entry (Some 7) (Some (Qc_of_Z 500)) (Some "thanks") None);
       ESI.JournalEntry 13 (Some "player_donation")
         (WalletJournal.Entry (Some 9) (Some (Qc_of_Z 9)) None
            (Some "Nine deposited"))]
      (Some 2)
  else ESI.Failed.

(** ** Reasoning about the loops of the rebuild *)

Lemma extends_nil t : extends t t [].
Proof.
  exists []. rewrite app_nil_r. simpl. repeat split; lia.
Qed.

Lemma extends_app t1 t2 t3 vs ws :
  extends t1 t2 vs → extends t2 t3 ws → extends t1 t3 (vs ++ ws).
Proof.
  intros (n1 & R1 & C1 & I1 & S1) (n2 & R2 & C2 & I2 & S2).
  exists (n1 ++ n2). rewrite R2, R1, S2, S1, !fmap_app, C1, C2, I1, I2.
  rewrite length_app, Nat2Z.inj_add.
  repeat split.
  - by rewrite app_assoc.
  - rewrite seqZ_app by lia. do 2 f_equal. lia.
  - lia.
Qed.

Lemma emits_ret db : emits db (mret tt) [].
Proof.
  intros c t Hf Ht. simpl. repeat split; try done.
  exists t. split; [done | apply extends_nil].
Qed.

Lemma emits_seq db (m m' : py unit) vs ws :
  emits db m vs → emits db m' ws → emits db (m ;; m') (vs ++ ws).
Proof.
  intros Hm Hm' c t Hf Ht. unfold mbind, py_bind.
  specialize (Hm c t Hf Ht). destruct (m c) as [[[]|e] c1]; [|done].
  destruct Hm as (Hf1 & Hfa & Hcl & t1 & Ht1 & He1).
  specialize (Hm' c1 t1 Hf1 Ht1). destruct (m' c1) as [[[]|e] c2].
  - destruct Hm' as (Hf2 & Hfa2 & Hcl2 & t2 & Ht2 & He2).
    repeat split; try congruence.
    exists t2. split; [done | by eapply extends_app].
  - destruct Hm' as (Hf2 & He & Hs). repeat split; try done. congruence.
Qed.

Lemma emits_insert db v : emits db (execute_insert_member_flows v) [v].
Proof.
  intros c t Hf Ht. unfold execute_insert_member_flows, storage_call.
  destruct (decide (fail_at c = Some (calls c))) as [Hfail|_]; simpl.
  - repeat split; first [done | rewrite Hfail; by eexists].
  - repeat split; try done. eexists. split; [done|].
    unfold view. rewrite Ht. simpl.
    exists [MemberFlows.stored (MemberFlows.seq t + 1) (clock c (calls c)) v].
    simpl. repeat split; try done. by destruct v.
Qed.

Lemma emits_for_each {A} db (body : A → py unit) f (l : list A) :
  (∀ x, emits db (body x) (f x)) → emits db (for_each l body) (l ≫= f).
Proof.
  intros Hbody. induction l as [|x l IH]; simpl.
  - apply emits_ret.
  - apply emits_seq; [apply Hbody | apply IH].
Qed.

Lemma emits_select {A} db (query : database → list A) (k : list A → py unit) vs :
  emits db (k (query db)) vs → emits db (execute_select query ≫= k) vs.
Proof.
  intros Hk c t Hf Ht. unfold mbind, py_bind, execute_select, storage_call.
  destruct (decide (fail_at c = Some (calls c))) as [Hfail|_]; simpl.
  - repeat split; first [done | rewrite Hfail; by eexists].
  - rewrite Hf. by apply (Hk (Connection _ _ _ _ _)).
Qed.

(** A projection of the selected rows, bound to what the loop body
    inserts, is a bind over the table itself. *)
Lemma bind_fmap_filter {A B C} (P : A → bool) (g : A → B) (h : B → list C)
    (f : A → list C) (l : list A) :
  (∀ x, f x = if P x then h (g x) else []) →
  (g <$> filter (λ x, P x) l) ≫= h = l ≫= f.
Proof.
  intros Hf. induction l as [|x l IH]; [done|].
  rewrite (bind_cons f), (Hf x). destruct (P x) eqn:E.
  - rewrite filter_cons_True by (simpl; rewrite E; exact I).
    by rewrite fmap_cons, bind_cons, IH.
  - rewrite filter_cons_False by (simpl; rewrite E; intros []). by rewrite IH.
Qed.

Lemma ret_bind {A B} (a : A) (k : A → py B) : (mret a ≫= k) = k a.
Proof. reflexivity. Qed.

Lemma emits_for_each_select {A B} db (P : A → bool) (g : A → B)
    (body : B → py unit) (f : A → list MemberFlows.values) (l : list A) :
  (∀ x, P x = true → emits db (body (g x)) (f x)) →
  (∀ x, P x = false → f x = []) →
  emits db (for_each (g <$> filter (λ x, P x) l) body) (l ≫= f).
Proof.
  intros Hsel Hrej. induction l as [|x l IH]; [apply emits_ret|].
  rewrite bind_cons. destruct (P x) eqn:E.
  - rewrite filter_cons_True by (simpl; rewrite E; exact I).
    rewrite fmap_cons. simpl. apply emits_seq; [by apply Hsel | apply IH].
  - rewrite filter_cons_False by (simpl; rewrite E; intros []).
    by rewrite (Hrej x E).
Qed.

Lemma commits_last db (m : py unit) vs :
  emits db m vs → commits db (m ;; commit) vs.
Proof.
  intros Hm c t Hf Ht. unfold mbind, py_bind.
  specialize (Hm c t Hf Ht). destruct (m c) as [[[]|e] c1]; [|done].
  destruct Hm as (Hf1 & Hfa & Hcl & t1 & Ht1 & He1).
  unfold commit, storage_call.
  destruct (decide (fail_at c1 = Some (calls c1))) as [Hfail|_]; simpl.
  - repeat split; first [done | rewrite <-Hfa, Hfail; by eexists].
  - repeat split; try done. exists t1. unfold view. rewrite Ht1, Hf1. by subst db.
Qed.

Lemma commits_seq db (m m' : py unit) vs ws :
  emits db m vs → commits db m' ws → commits db (m ;; m') (vs ++ ws).
Proof.
  intros Hm Hm' c t Hf Ht. unfold mbind, py_bind.
  specialize (Hm c t Hf Ht). destruct (m c) as [[[]|e] c1]; [|done].
  destruct Hm as (Hf1 & Hfa & Hcl & t1 & Ht1 & He1).
  specialize (Hm' c1 t1 Hf1 Ht1). destruct (m' c1) as [[[]|e] c2].
  - destruct Hm' as (Hu & Hfa2 & Hcl2 & t2 & Hf2 & He2).
    repeat split; try congruence.
    exists t2. split; [done | by eapply extends_app].
  - destruct Hm' as (Hf2 & He & Hs). repeat split; try done. congruence.
Qed.

Lemma commits_select {A} db (query : database → list A) (k : list A → py unit) vs :
  commits db (k (query db)) vs → commits db (execute_select query ≫= k) vs.
Proof.
  intros Hk c t Hf Ht. unfold mbind, py_bind, execute_select, storage_call.
  destruct (decide (fail_at c = Some (calls c))) as [Hfail|_]; simpl.
  - repeat split; first [done | rewrite Hfail; by eexists].
  - rewrite Hf. by apply (Hk (Connection _ _ _ _ _)).
Qed.

Lemma emits_for_each_fmap {A B} db (g : A → B) (body : B → py unit)
    (f : A → list MemberFlows.values) (l : list A) :
  (∀ x, emits db (body (g x)) (f x)) →
  emits db (for_each (g <$> l) body) (l ≫= f).
Proof.
  intros Hbody. induction l as [|x l IH]; [apply emits_ret|].
  rewrite bind_cons, fmap_cons. simpl. apply emits_seq; [apply Hbody | apply IH].
Qed.

Lemma int_or_0_default x : int_or_0 x = Some (default 0 x).
Proof. destruct x as [n|]; [|done]. simpl. by case_decide; subst. Qed.

Lemma or_0_Some q : or_0 (Some q) = Some q.
Proof. simpl. by case_decide; subst. Qed.

(** Closes the goal for one loop body once its row is destructed. *)
Ltac loop_body :=
  repeat first
    [ progress (cbn [int float float_of_int is_None orb negb andb SQL.holds SQL.AND
                    SQL.OR SQL.EQ SQL.IS_NULL SQL.IS_NOT_NULL default] in *)
    | discriminate
    | progress rewrite ?ret_bind, ?int_or_0_default, ?or_0_Some in *
    | case_bool_decide
    | apply emits_ret
    | apply emits_insert
    | apply (emits_seq _ _ _ [_] [_])
    | done
    | progress intros ].

Lemma commits_after_delete db (m : py unit) vs c :
  file c = db → commits db m vs →
  match (execute_delete_member_flows ;; m) c with
  | (Ok _, c') =>
      uncommitted c' = None ∧ fail_at c' = fail_at c ∧ clock c' = clock c
      ∧ ∃ t', file c' = with_member_flows db t'
              ∧ extends (MemberFlows.Table [] (MemberFlows.seq (view c))) t' vs
  | (Raise e, c') =>
      file c' = db ∧ e = OperationalError ∧ is_Some (fail_at c)
  end.
Proof.
  intros Hf Hm. unfold mbind, py_bind, execute_delete_member_flows, storage_call.
  destruct (decide (fail_at c = Some (calls c))) as [Hfail|_]; simpl.
  - repeat split; first [done | rewrite Hfail; by eexists].
  - by apply (Hm (Connection _ _ _ _ _)).
Qed.

Lemma rebuild_member_flows_rebuilt str_float c :
  rebuilt str_float c (rebuild_member_flows str_float c).
Proof.
  unfold rebuilt, rebuild_member_flows, derived_flows.
  apply commits_after_delete; [done|].
  apply commits_select, commits_seq.
  { apply emits_for_each_fmap. intros [j m a d]. unfold donation_flows. simpl.
    destruct m, a; loop_body. }
  apply commits_select, commits_seq.
  { apply emits_for_each_select.
    - intros [cid iss ass st fc pr jan]. unfold contract_in_flows, donation_contract.
      simpl. destruct pr, st, jan, iss; loop_body.
    - intros [cid iss ass st fc pr jan]. unfold contract_in_flows, donation_contract.
      simpl. destruct pr, st, jan, iss; loop_body. }
  apply commits_select, commits_seq.
  { apply emits_for_each_select.
    - intros [cid iss ass st fc pr jan]. unfold contract_out_flows.
      simpl. destruct fc, pr, st, jan, ass; loop_body.
    - intros [cid iss ass st fc pr jan]. unfold contract_out_flows.
      simpl. destruct fc, pr, st, jan, ass; loop_body. }
  apply commits_select, commits_seq.
  { apply emits_for_each_select.
    - intros [jid ins pt rn co st]. unfold industry_flows.
      simpl. destruct st, co, ins; loop_body.
    - intros [jid ins pt rn co st]. unfold industry_flows.
      simpl. destruct st, co, ins; loop_body. }
  apply commits_select, commits_last.
  apply emits_for_each_select.
  - intros [oid vt vr pr bo ib st hi]. unfold market_flows, sold.
    simpl. destruct hi, bo, ib, pr, vt; loop_body.
  - intros [oid vt vr pr bo ib st hi]. unfold market_flows, sold.
    simpl. destruct hi, bo, ib, pr, vt; loop_body.
Qed.

(** A rebuild on a connection whose storage never fails returns, having
    committed exactly the derived flows. *)
Lemma rebuild_completes str_float c :
  fail_at c = None →
  ∃ c', rebuild_member_flows str_float c = (Ok tt, c')
        ∧ ledger (file c') = derived_flows str_float (file c)
        ∧ uncommitted c' = None
        ∧ donations (file c') = donations (file c)
        ∧ contracts (file c') = contracts (file c)
        ∧ industry_jobs (file c') = industry_jobs (file c)
        ∧ market_orders (file c') = market_orders (file c)
        ∧ extends (MemberFlows.Table [] (MemberFlows.seq (view c)))
            (member_flows (file c')) (derived_flows str_float (file c)).
Proof.
  intros Hnone. pose proof (rebuild_member_flows_rebuilt str_float c) as H.
  unfold rebuilt in H.
  destruct (rebuild_member_flows str_float c) as [[[]|e] c'].
  - destruct H as (Hu & _ & _ & t' & Hf & He). exists c'.
    rewrite Hf. unfold ledger. simpl. repeat split; try done.
    destruct He as (new & Hr & Hc & _). simpl in Hr. by rewrite Hr.
  - destruct H as (_ & _ & Hs). rewrite Hnone in Hs. by destruct Hs.
Qed.

Lemma filter_bind_all {A B} (P : B → Prop) `{∀ v, Decision (P v)}
    (f : A → list B) (l : list A) :
  (∀ x, Forall P (f x)) → filter P (l ≫= f) = l ≫= f.
Proof.
  intros Hall. induction l as [|x l IH]; [done|].
  rewrite bind_cons, filter_app, IH. f_equal.
  specialize (Hall x). induction Hall as [|v vs Hv _ IHv]; [done|].
  by rewrite filter_cons_True, IHv.
Qed.

Lemma filter_bind_none {A B} (P : B → Prop) `{∀ v, Decision (P v)}
    (f : A → list B) (l : list A) :
  (∀ x, Forall (λ v, ¬ P v) (f x)) → filter P (l ≫= f) = [].
Proof.
  intros Hnone. induction l as [|x l IH]; [done|].
  rewrite bind_cons, filter_app, IH, app_nil_r.
  specialize (Hnone x). induction Hnone as [|v vs Hv _ IHv]; [done|].
  by rewrite filter_cons_False.
Qed.

(** Decides a fact about the sources of the rows one rule inserts. *)
Ltac by_source f :=
  let x := fresh "x" in
  intros x; unfold f; repeat case_match; repeat constructor; simpl;
  try done; try (intros [?|?]; done).

Lemma bind_omap {A B} (f : A → list B) (g : A → option B) (l : list A) :
  (∀ x, f x = option_list (g x)) → l ≫= f = omap g l.
Proof.
  intros Hfg. induction l as [|x l IH]; [done|].
  rewrite bind_cons, Hfg. simpl. rewrite IH. by destruct (g x).
Qed.

(** C6. Rule W: after a rebuild whose storage calls succeed, which returns
    without raising, the ledger records with source 'wallet' are, in table
    order, one record per donation whose member identifier and amount are
    both non-null: member = donor, direction 'in', value = amount,
    referencing the donation's journal entry; a donation with a null member
    identifier or a null amount contributes no record. *)
Theorem wallet_donations_flow str_float (c : connection) :
  fail_at c = None →
  ∃ c', rebuild_member_flows str_float c = (Ok tt, c')
    ∧ filter (λ v, MemberFlows.v_source v = "wallet") (ledger (file c'))
      = omap (λ d,
          match Donations.character_id d, Donations.amount d with
          | Some member, Some amount =>
              Some (MemberFlows.Values member "in" "wallet" None
                      (Donations.journal_esi_id d) amount
                      (slice_to 200 (default "" (Donations.description d))))
          | _, _ => None
          end) (donations (file c)).
Proof.
  intros Hnone. destruct (rebuild_completes str_float c Hnone) as (c' & Hr & Hl & _).
  exists c'. split; [done|]. rewrite Hl. unfold derived_flows.
  rewrite !filter_app.
  rewrite filter_bind_all by (by_source donation_flows).
  rewrite (filter_bind_none _ contract_in_flows) by (by_source contract_in_flows).
  rewrite (filter_bind_none _ contract_out_flows) by (by_source contract_out_flows).
  rewrite (filter_bind_none _ industry_flows) by (by_source industry_flows).
  rewrite (filter_bind_none _ (market_flows _)) by (by_source market_flows).
  rewrite !app_nil_r. apply bind_omap.
  intros d. unfold donation_flows. by repeat case_match.
Qed.

(** Splits a selection by source over the five rules of the rebuild. *)
Ltac select_by_source :=
  unfold derived_flows; rewrite !filter_app;
  first [ rewrite (filter_bind_all _ donation_flows) by (by_source donation_flows)
        | rewrite (filter_bind_none _ donation_flows) by (by_source donation_flows) ];
  first [ rewrite (filter_bind_all _ contract_in_flows) by (by_source contract_in_flows)
        | rewrite (filter_bind_none _ contract_in_flows) by (by_source contract_in_flows) ];
  first [ rewrite (filter_bind_all _ contract_out_flows) by (by_source contract_out_flows)
        | rewrite (filter_bind_none _ contract_out_flows) by (by_source contract_out_flows) ];
  first [ rewrite (filter_bind_all _ industry_flows) by (by_source industry_flows)
        | rewrite (filter_bind_none _ industry_flows) by (by_source industry_flows) ];
  first [ rewrite (filter_bind_all _ (market_flows _)) by (by_source market_flows)
        | rewrite (filter_bind_none _ (market_flows _)) by (by_source market_flows) ];
  rewrite ?app_nil_r, ?app_nil_l.

(** C2. Rule C-IN: after a rebuild whose storage calls succeed, the ledger
    records with source 'contract_in' are, in table order, one record per
    contract whose price is null or zero, whose status is 'finished' and
    whose appraisal value and issuer are non-null: member = issuer,
    direction 'in', value = the appraisal value; a contract missing any of
    these conditions contributes no 'contract_in' record. *)
Theorem contract_donations_flow str_float (c : connection) :
  fail_at c = None →
  ∃ c', rebuild_member_flows str_float c = (Ok tt, c')
    ∧ filter (λ v, MemberFlows.v_source v = "contract_in") (ledger (file c'))
      = omap (λ k,
          match Contracts.issuer_id k, Contracts.janice_immediate_split k with
          | Some issuer, Some appraisal =>
              if decide ((Contracts.price k = None ∨ Contracts.price k = Some 0%Qc)
                         ∧ Contracts.status k = Some "finished")
              then Some (MemberFlows.Values issuer "in" "contract_in"
                           (Contracts.contract_id k) None appraisal
                           "Donation contract to corp")
              else None
          | _, _ => None
          end) (contracts (file c)).
Proof.
  intros Hnone. destruct (rebuild_completes str_float c Hnone) as (c' & Hr & Hl & _).
  exists c'. split; [done|]. rewrite Hl. select_by_source. apply bind_omap.
  intros [cid iss ass st fc pr jan]. unfold contract_in_flows, donation_contract.
  simpl. destruct iss, jan, pr, st; simpl; repeat case_bool_decide;
    repeat case_decide; simpl; try done; naive_solver.
Qed.


Lemma Qc_not_le_0 (x : Qc) : ¬ (x ≤ 0)%Qc ↔ (0 < x)%Qc.
Proof. symmetry. apply Qclt_nge. Qed.





Lemma Qcmult_nonneg (x y : Qc) : (0 ≤ x)%Qc → (0 ≤ y)%Qc → (0 ≤ x * y)%Qc.
Proof.
  intros Hx Hy. rewrite <-(Qcmult_0_l y). by apply Qcmult_le_mono_nonneg_r.
Qed.

Lemma Qc_tenth_nonneg : (0 ≤ Q2Qc (1 # 10))%Qc.
Proof. discriminate. Qed.

Lemma Qc_hundredth_nonneg : (0 ≤ Q2Qc (1 # 100))%Qc.
Proof. discriminate. Qed.

(** C3, as amended. When the amounts of the donations, the appraisal
    values of the contracts, the costs of the industry jobs and the prices
    of the market orders in the source tables are non-negative, every row
    of the ledger after a rebuild has value_isk >= 0. *)
Theorem flow_values_nonnegative str_float (c : connection) :
  fail_at c = None →
  (∀ d a, d ∈ donations (file c) → Donations.amount d = Some a → (0 ≤ a)%Qc) →
  (∀ k v, k ∈ contracts (file c) →
          Contracts.janice_immediate_split k = Some v → (0 ≤ v)%Qc) →
  (∀ j v, j ∈ industry_jobs (file c) → IndustryJobs.cost j = Some v → (0 ≤ v)%Qc) →
  (∀ o p, o ∈ market_orders (file c) → MarketOrders.price o = Some p → (0 ≤ p)%Qc) →
  ∃ c', rebuild_member_flows str_float c = (Ok tt, c')
    ∧ ∀ r, r ∈ MemberFlows.rows (member_flows (file c')) →
           (0 ≤ MemberFlows.value_isk r)%Qc.
Proof.
  intros Hnone Hd Hk Hj Ho.
  destruct (rebuild_completes str_float c Hnone) as (c' & Hr & Hl & _).
  exists c'. split; [done|]. intros r Hin.
  assert (MemberFlows.content r ∈ ledger (file c')) as Hc
    by (by apply list_elem_of_fmap_2).
  change (MemberFlows.value_isk r)
    with (MemberFlows.v_value_isk (MemberFlows.content r)).
  revert Hc. generalize (MemberFlows.content r). clear r Hin. intros v.
  rewrite Hl. unfold derived_flows. rewrite !elem_of_app, !list_elem_of_bind.
  intros [(d & Hv & Hin)|[(k & Hv & Hin)|[(k & Hv & Hin)|[(j & Hv & Hin)|(o & Hv & Hin)]]]].
  - unfold donation_flows in Hv. specialize (Hd d).
    destruct (Donations.character_id d), (Donations.amount d);
      try (by apply elem_of_nil in Hv).
    apply list_elem_of_singleton in Hv as ->. simpl. by apply Hd.
  - unfold contract_in_flows in Hv. specialize (Hk k).
    destruct (donation_contract k), (Contracts.issuer_id k),
      (Contracts.janice_immediate_split k); try (by apply elem_of_nil in Hv).
    apply list_elem_of_singleton in Hv as ->. simpl. by apply Hk.
  - unfold contract_out_flows in Hv.
    destruct (Contracts.for_corporation k), (Contracts.price k) as [p|],
      (Contracts.status k), (Contracts.janice_immediate_split k) as [a|],
      (Contracts.assignee_id k); try (by apply elem_of_nil in Hv).
    destruct (decide (a - p ≤ 0)%Qc) as [Hle|Hgt].
    + rewrite (bool_decide_eq_true_2 _ Hle), !andb_false_r in Hv.
      by apply elem_of_nil in Hv.
    + apply Qc_not_le_0, Qclt_le_weak in Hgt.
      destruct (_ && _); [|by apply elem_of_nil in Hv].
      apply elem_of_cons in Hv as [->|Hv]; [done|].
      apply list_elem_of_singleton in Hv as ->. simpl.
      apply Qcmult_nonneg; [done | apply Qc_tenth_nonneg].
  - unfold industry_flows in Hv. specialize (Hj j).
    destruct (IndustryJobs.status j), (IndustryJobs.cost j),
      (IndustryJobs.installer_id j); try (by apply elem_of_nil in Hv).
    case_bool_decide; [|by apply elem_of_nil in Hv].
    apply list_elem_of_singleton in Hv as ->. simpl. by apply Hj.
  - unfold market_flows in Hv. specialize (Ho o).
    destruct (MarketOrders.is_history o), (MarketOrders.is_buy_order o),
      (MarketOrders.issued_by o), (MarketOrders.price o) as [p|],
      (MarketOrders.volume_total o) as [t|]; try (by apply elem_of_nil in Hv).
    simpl in Hv.
    destruct (decide (sold t (MarketOrders.volume_remain o) ≤ 0)%Qc) as [Hle|Hgt].
    + rewrite (bool_decide_eq_true_2 _ Hle), !andb_false_r in Hv.
      by apply elem_of_nil in Hv.
    + apply Qc_not_le_0, Qclt_le_weak in Hgt.
      destruct (_ && _); [|by apply elem_of_nil in Hv].
      apply list_elem_of_singleton in Hv as ->. simpl.
      apply Qcmult_nonneg; [|apply Qc_hundredth_nonneg].
      apply Qcmult_nonneg; [done | by apply Ho].
Qed.

Lemma extends_fresh_ids t t' vs r :
  extends t t' vs → r ∈ MemberFlows.rows t' →
  r ∈ MemberFlows.rows t ∨ MemberFlows.seq t < MemberFlows.id r.
Proof.
  intros (new & Hr & _ & Hid & _). rewrite Hr, elem_of_app.
  intros [?|Hin]; [by left | right].
  apply (list_elem_of_fmap_2 MemberFlows.id) in Hin. rewrite Hid in Hin.
  apply elem_of_seqZ in Hin. lia.
Qed.

(** [cmd_sync_flows] on a store that never fails. *)
Lemma cmd_sync_flows_completes str_float db clock :
  ∃ db', cmd_sync_flows str_float db None clock = (Ok tt, db')
    ∧ ledger db' = derived_flows str_float db
    ∧ donations db' = donations db
    ∧ contracts db' = contracts db
    ∧ industry_jobs db' = industry_jobs db
    ∧ market_orders db' = market_orders db
    ∧ ∀ r, r ∈ MemberFlows.rows (member_flows db') →
           MemberFlows.seq (member_flows db) < MemberFlows.id r.
Proof.
  unfold cmd_sync_flows.
  destruct (rebuild_completes str_float (connect db None clock) eq_refl)
    as (c' & Hr & Hl & _ & Hd & Hk & Hj & Ho & He).
  rewrite Hr. exists (file c'). repeat split; try done.
  intros r Hin. destruct (extends_fresh_ids _ _ _ r He Hin) as [Hnil|Hlt]; [|done].
  by apply elem_of_nil in Hnil.
Qed.

Lemma derived_flows_same_sources str_float db db' :
  same_sources db db' → derived_flows str_float db ≡ₚ derived_flows str_float db'.
Proof.
  intros (Hd & Hk & Hj & Ho). unfold derived_flows.
  by rewrite Hd, Hk, Hj, Ho.
Qed.

(** C9. Rebuild is idempotent total replacement. From any database, on a
    store that does not fail: a rebuild returns; a second rebuild in
    succession returns with the same records up to id and created_at; the
    source tables are left as they were; a rebuild from any database with
    the same source rows, in any scan order and with any previous ledger,
    gives the same multiset of records; and every row of the rebuilt
    ledger has an id above the AUTOINCREMENT counter of the previous
    ledger, so no previous row is among them. *)
Theorem rebuild_idempotent_replacement str_float (db : database) clock :
  ∃ db1, cmd_sync_flows str_float db None clock = (Ok tt, db1)
    ∧ same_sources db db1
    ∧ (∀ clock', ∃ db2,
         cmd_sync_flows str_float db1 None clock' = (Ok tt, db2)
         ∧ ledger db2 = ledger db1)
    ∧ (∀ db' clock', same_sources db db' → ∃ db1',
         cmd_sync_flows str_float db' None clock' = (Ok tt, db1')
         ∧ ledger db1' ≡ₚ ledger db1)
    ∧ (∀ r, r ∈ MemberFlows.rows (member_flows db1) →
            MemberFlows.seq (member_flows db) < MemberFlows.id r)
    ∧ (ids_bounded (member_flows db) →
       ∀ r, r ∈ MemberFlows.rows (member_flows db1) →
            r ∉ MemberFlows.rows (member_flows db)).
Proof.
  destruct (cmd_sync_flows_completes str_float db clock)
    as (db1 & Hr & Hl & Hd & Hk & Hj & Ho & Hfresh).
  exists db1. split; [done|]. split.
  { unfold same_sources. by rewrite Hd, Hk, Hj, Ho. }
  split.
  { intros clock'. destruct (cmd_sync_flows_completes str_float db1 clock')
      as (db2 & Hr2 & Hl2 & _). exists db2. split; [done|].
    rewrite Hl2, Hl. unfold derived_flows. by rewrite Hd, Hk, Hj, Ho. }
  split.
  { intros db' clock' Hsame.
    destruct (cmd_sync_flows_completes str_float db' clock')
      as (db1' & Hr' & Hl' & _). exists db1'. split; [done|].
    rewrite Hl', Hl. symmetry. by apply derived_flows_same_sources. }
  split; [done|].
  intros Hbound r Hin Hold. specialize (Hfresh r Hin).
  specialize (Hbound r Hold). lia.
Qed.

(** C8. A rebuild is atomic on the committed ledger. Whatever storage call
    fails, if any, [cmd_sync_flows] either returns, and the file then holds
    the complete derived ledger with the source tables untouched, or raises
    the storage error, and the file is then exactly the file it started
    from: the committed ledger is never partially cleared nor partially
    populated. *)
Theorem rebuild_atomic str_float (db : database) (fail_at : option nat) clock :
  match cmd_sync_flows str_float db fail_at clock with
  | (Ok _, db') =>
      ledger db' = derived_flows str_float db
      ∧ donations db' = donations db ∧ contracts db' = contracts db
      ∧ industry_jobs db' = industry_jobs db
      ∧ market_orders db' = market_orders db
  | (Raise e, db') => db' = db ∧ e = OperationalError ∧ is_Some fail_at
  end.
Proof.
  unfold cmd_sync_flows.
  pose proof (rebuild_member_flows_rebuilt str_float (connect db fail_at clock)) as H.
  unfold rebuilt in H.
  destruct (rebuild_member_flows str_float (connect db fail_at clock))
    as [[[]|e] c'].
  - destruct H as (_ & _ & _ & t' & Hf & new & Hrows & Hc & _).
    rewrite Hf. unfold ledger. simpl in *. by rewrite Hrows.
  - by destruct H as (? & ? & ?).
Qed.

(** ** The aggregates of [get_flow_totals] and [get_member_net_values] *)

Lemma SUM_default l : default 0%Qc (SQL.SUM l) = foldr Qcplus 0%Qc l.
Proof. by destruct l. Qed.

Lemma or_0_default x : or_0 x = Some (default 0%Qc x).
Proof.
  destruct x as [q|]; simpl; [|done].
  destruct (decide (q = 0%Qc)); congruence.
Qed.

Lemma total_of_cons d r t :
  total_of d (r :: t) = (case_direction d r + total_of d t)%Qc.
Proof.
  unfold total_of, case_direction. rewrite filter_cons.
  destruct (decide (MemberFlows.direction r = d)); simpl; [done|ring].
Qed.

Lemma sum_case_direction d t :
  foldr Qcplus 0%Qc (case_direction d <$> t) = total_of d t.
Proof.
  induction t as [|r t IH]; [done|].
  rewrite fmap_cons, total_of_cons. simpl. by rewrite IH.
Qed.




Lemma fmap_pointwise {A B} (f g : A → B) (l : list A) :
  (∀ x, f x = g x) → f <$> l = g <$> l.
Proof. intros H. induction l as [|x l IH]; [done|]. by rewrite !fmap_cons, H, IH. Qed.







Lemma execute_select_flows_ok {A} (query : list MemberFlows.row → A) c :
  fail_at c = None →
  ∃ c', execute_select_flows query c = (Ok (query (MemberFlows.rows (view c))), c')
        ∧ fail_at c' = None ∧ file c' = file c ∧ uncommitted c' = uncommitted c.
Proof.
  intros Hf. unfold execute_select_flows, storage_call. rewrite Hf.
  rewrite decide_False by done. by eexists.
Qed.

Lemma get_flow_totals_ok c :
  fail_at c = None →
  let t := MemberFlows.rows (view c) in
  ∃ c', get_flow_totals c
        = (Ok (total_of "in" t, total_of "out" t,
               (total_of "in" t - total_of "out" t)%Qc), c')
        ∧ fail_at c' = None ∧ file c' = file c ∧ uncommitted c' = uncommitted c.
Proof.
  intros Hf t.
  destruct (execute_select_flows_ok select_flow_totals c Hf) as (c1 & H1 & Hrest).
  exists c1. split; [|exact Hrest].
  unfold get_flow_totals, mbind, py_bind. rewrite H1. fold t.
  unfold select_flow_totals, SQL.COALESCE.
  rewrite !SUM_default, !sum_case_direction, !or_0_default. done.
Qed.


(** Equality of computed records: rationals are compared by their value. *)
Ltac qc_values :=
  repeat first
    [ reflexivity
    | match goal with |- @eq Qc _ _ => apply Qc_is_canon; reflexivity end
    | progress f_equal ].

(** ** The dashboard's share conversion *)

(** C4. [cmd_dashboard] divides the net by the module constant
    SHARE_UNIT_ISK = 1,000,000,000, which is positive, whatever the
    [custom] section of the configuration holds: the unit that
    [load_config] reads from the option share_unit_isk has no part in the
    share computation, and the guard against a non-positive unit tests the
    constant. *)
Theorem dashboard_shares_ignore_config (custom : option (gmap string Z))
    (c : connection) :
  fail_at c = None →
  let t := MemberFlows.rows (view c) in
  let net := (total_of "in" t - total_of "out" t)%Qc in
  ∃ c', cmd_dashboard (load_config custom) c
        = (Ok (total_of "in" t, total_of "out" t, net,
               (net / Qc_of_Z 1000000000)%Qc), c').
Proof.
  intros Hf t net.
  destruct (get_flow_totals_ok c Hf) as (c' & Htot & _).
  exists c'. unfold cmd_dashboard, mbind, py_bind. rewrite Htot. done.
Qed.

(** With share_unit_isk configured as 0 and a net of 2,000,000,000 the
    dashboard shows 2 shares. *)
Lemma dashboard_zero_unit_configured :
  fail_at (connect two_billion_db None sample_clock) = None
  ∧ custom_share_unit_isk (load_config (Some {["share_unit_isk" := 0]})) = 0
  ∧ ∃ c', cmd_dashboard (load_config (Some {["share_unit_isk" := 0]}))
            (connect two_billion_db None sample_clock)
          = (Ok (Qc_of_Z 2000000000, Qc_of_Z 0, Qc_of_Z 2000000000, Qc_of_Z 2), c').
Proof.
  split; [reflexivity|]. split; [by vm_compute|].
  destruct (dashboard_shares_ignore_config (Some {["share_unit_isk" := 0]})
              (connect two_billion_db None sample_clock) eq_refl) as (c' & H).
  exists c'. rewrite H. vm_compute. qc_values.
Defined.

(** ** Worked examples *)

Lemma wallet_donations_flow_sample :
  fail_at sample_connection = None
  ∧ ∃ c', rebuild_member_flows sample_str_float sample_connection = (Ok tt, c')
      ∧ filter (λ v, MemberFlows.v_source v = "wallet") (ledger (file c'))
        = [MemberFlows.Values 7 "in" "wallet" None (Some 11) (Qc_of_Z 500)
             "thanks"].
Proof.
  split; [reflexivity|].
  destruct (wallet_donations_flow sample_str_float sample_connection eq_refl)
    as (c' & Hr & Hl).
  exists c'. split; [exact Hr|]. rewrite Hl. reflexivity.
Defined.

Lemma contract_donations_flow_sample :
  fail_at sample_connection = None
  ∧ ∃ c', rebuild_member_flows sample_str_float sample_connection = (Ok tt, c')
      ∧ filter (λ v, MemberFlows.v_source v = "contract_in") (ledger (file c'))
        = [MemberFlows.Values 7 "in" "contract_in" (Some 2) None
             (Qc_of_Z 1000000) "Donation contract to corp"].
Proof.
  split; [reflexivity|].
  destruct (contract_donations_flow sample_str_float sample_connection eq_refl)
    as (c' & Hr & Hl).
  exists c'. split; [exact Hr|]. rewrite Hl. vm_compute. reflexivity.
Defined.





Lemma flow_values_nonnegative_sample :
  ∃ c', rebuild_member_flows sample_str_float sample_connection = (Ok tt, c')
    ∧ ∀ r, r ∈ MemberFlows.rows (member_flows (file c')) →
           (0 ≤ MemberFlows.value_isk r)%Qc.
Proof.
  apply (flow_values_nonnegative sample_str_float sample_connection).
  - reflexivity.
  - intros d a Hin Ha. simpl in Hin.
    repeat (apply elem_of_cons in Hin as [->|Hin];
            [simpl in Ha; injection Ha as <-; discriminate|]).
    by apply elem_of_nil in Hin.
  - intros d a Hin Ha. simpl in Hin.
    repeat (apply elem_of_cons in Hin as [->|Hin];
            [simpl in Ha; injection Ha as <-; discriminate|]).
    by apply elem_of_nil in Hin.
  - intros d a Hin Ha. simpl in Hin.
    repeat (apply elem_of_cons in Hin as [->|Hin];
            [simpl in Ha; injection Ha as <-; discriminate|]).
    by apply elem_of_nil in Hin.
  - intros d a Hin Ha. simpl in Hin.
    repeat (apply elem_of_cons in Hin as [->|Hin];
            [simpl in Ha; injection Ha as <-; discriminate|]).
    by apply elem_of_nil in Hin.
Defined.

(** A donation row with amount -5 is stored with value -5. *)
Lemma negative_donation_stored :
  ∃ db', cmd_sync_flows sample_str_float negative_donation_db None sample_clock
         = (Ok tt, db')
    ∧ ∃ r, r ∈ MemberFlows.rows (member_flows db')
           ∧ MemberFlows.direction r = "in"
           ∧ (MemberFlows.value_isk r < 0)%Qc.
Proof.
  eexists. split; [vm_compute; reflexivity|].
  eexists. split; [apply list_elem_of_here|]. split; reflexivity.
Qed.


(** ** Further properties of the rebuilt ledger *)

(** X1. Rule I: after a rebuild whose storage calls succeed, the ledger
    records with source 'industry' are, in table order, one record per
    industry job with status 'delivered', a non-null cost and a non-null
    installer: member = installer, direction 'in', value = cost, no
    contract or journal reference, and the note
    "Industry job <job_id>, type <product_type_id>, runs <runs>" cut to 200
    characters, a null field printing as "None". Other jobs contribute no
    record. *)
Theorem industry_jobs_flow str_float (c : connection) :
  fail_at c = None →
  ∃ c', rebuild_member_flows str_float c = (Ok tt, c')
    ∧ filter (λ v, MemberFlows.v_source v = "industry") (ledger (file c'))
      = omap (λ j,
          match IndustryJobs.installer_id j, IndustryJobs.cost j with
          | Some installer, Some cost =>
              if decide (IndustryJobs.status j = Some "delivered")
              then Some (MemberFlows.Values installer "in" "industry" None None
                           cost
                           (slice_to 200
                              ("Industry job "
                               +:+ str_int (IndustryJobs.job_id j)
                               +:+ ", type "
                               +:+ str_int (IndustryJobs.product_type_id j)
                               +:+ ", runs "
                               +:+ str_int (IndustryJobs.runs j))))
              else None
          | _, _ => None
          end) (industry_jobs (file c)).
Proof.
  intros Hnone. destruct (rebuild_completes str_float c Hnone) as (c' & Hr & Hl & _).
  exists c'. split; [done|]. rewrite Hl. select_by_source. apply bind_omap.
  intros [jid ins pt rn co st]. unfold industry_flows. simpl.
  destruct st as [s|], co, ins; simpl; try done.
  destruct (decide (Some s = Some "delivered")) as [Heq|Hne].
  - injection Heq as ->. by rewrite bool_decide_eq_true_2.
  - rewrite bool_decide_eq_false_2; [done|]. by intros ->.
Qed.

Lemma industry_jobs_flow_sample :
  fail_at sample_connection = None
  ∧ ∃ c', rebuild_member_flows sample_str_float sample_connection = (Ok tt, c')
      ∧ filter (λ v, MemberFlows.v_source v = "industry") (ledger (file c'))
        = [MemberFlows.Values 9 "in" "industry" None None (Qc_of_Z 77)
             "Industry job 5, type 34, runs 2"].
Proof.
  split; [reflexivity|].
  destruct (industry_jobs_flow sample_str_float sample_connection eq_refl)
    as (c' & Hr & Hl).
  exists c'. split; [exact Hr|]. rewrite Hl. vm_compute. qc_values.
Defined.

(** Each record of the derived flows comes from one of the five rules. *)
Lemma elem_of_derived_flows str_float db v :
  v ∈ derived_flows str_float db →
  (∃ d, v ∈ donation_flows d)
  ∨ (∃ k, v ∈ contract_in_flows k)
  ∨ (∃ k, v ∈ contract_out_flows k)
  ∨ (∃ j, v ∈ industry_flows j)
  ∨ (∃ o, v ∈ market_flows str_float o).
Proof.
  unfold derived_flows. rewrite !elem_of_app, !list_elem_of_bind.
  intros [(d & Hv & _)|[(k & Hv & _)|[(k & Hv & _)|[(j & Hv & _)|(o & Hv & _)]]]];
    eauto 10.
Qed.

(** Names the one or two records a rule inserts for a row. *)
Ltac rule_records H :=
  repeat case_match; repeat (apply elem_of_cons in H as [->|H]);
  try (by apply elem_of_nil in H);
  cbn [MemberFlows.v_character_id MemberFlows.v_direction MemberFlows.v_source
       MemberFlows.v_contract_id MemberFlows.v_journal_esi_id
       MemberFlows.v_value_isk MemberFlows.v_note].

(** Membership of a closed list of strings, or its refutation. *)
Ltac in_closed_list :=
  first
    [ by repeat first [apply list_elem_of_here | apply list_elem_of_further]
    | let H := fresh in
      intros H; repeat (apply elem_of_cons in H as [H|H]; [discriminate|]);
      by apply elem_of_nil in H ].

Ltac vocabulary :=
  split; [in_closed_list | split; first [done | in_closed_list]].

(** X2. The vocabulary of the ledger: after a rebuild whose storage calls
    succeed every record has one of six (direction, source) pairs; 'out'
    appears with the source 'contract_out' only; a journal reference is
    carried by 'wallet' records only and a contract reference by the three
    contract sources only. *)
Theorem flow_directions_and_sources str_float (c : connection) :
  fail_at c = None →
  ∃ c', rebuild_member_flows str_float c = (Ok tt, c')
    ∧ ∀ v, v ∈ ledger (file c') →
        (MemberFlows.v_direction v, MemberFlows.v_source v)
          ∈ [("in", "wallet"); ("in", "contract_in"); ("out", "contract_out");
             ("in", "contract_out_subsidy"); ("in", "industry");
             ("in", "market")]
        ∧ (MemberFlows.v_source v ≠ "wallet" →
           MemberFlows.v_journal_esi_id v = None)
        ∧ (MemberFlows.v_source v ∈ ["wallet"; "industry"; "market"] →
           MemberFlows.v_contract_id v = None).
Proof.
  intros Hnone. destruct (rebuild_completes str_float c Hnone) as (c' & Hr & Hl & _).
  exists c'. split; [done|]. intros v. rewrite Hl.
  intros [(d & H)|[(k & H)|[(k & H)|[(j & H)|(o & H)]]]]%elem_of_derived_flows.
  - unfold donation_flows in H. rule_records H. vocabulary.
  - unfold contract_in_flows in H. rule_records H. vocabulary.
  - unfold contract_out_flows in H. rule_records H; vocabulary.
  - unfold industry_flows in H. rule_records H. vocabulary.
  - unfold market_flows in H. rule_records H. vocabulary.
Qed.

Lemma flow_directions_and_sources_sample :
  fail_at sample_connection = None
  ∧ ∃ c', rebuild_member_flows sample_str_float sample_connection = (Ok tt, c')
      ∧ (MemberFlows.v_direction <$> ledger (file c'))
        = ["in"; "in"; "out"; "in"; "in"; "in"].
Proof.
  split; [reflexivity|].
  destruct (flow_directions_and_sources sample_str_float sample_connection eq_refl)
    as (c' & Hr & _).
  exists c'. split; [exact Hr|].
  injection Hr as <-. reflexivity.
Defined.

Lemma length_slice_to n s : (String.length (slice_to n s) ≤ n)%nat.
Proof.
  unfold slice_to. revert n. induction s as [|a s IH]; intros [|n]; simpl; try lia.
  specialize (IH n). lia.
Qed.

(** X3. Notes are bounded: after a rebuild whose storage calls succeed the
    note of every record has at most 200 characters, whatever the length
    of the donation descriptions and of the printed numbers. *)
Theorem flow_notes_bounded str_float (c : connection) :
  fail_at c = None →
  ∃ c', rebuild_member_flows str_float c = (Ok tt, c')
    ∧ ∀ r, r ∈ MemberFlows.rows (member_flows (file c')) →
           (String.length (MemberFlows.note r) ≤ 200)%nat.
Proof.
  intros Hnone. destruct (rebuild_completes str_float c Hnone) as (c' & Hr & Hl & _).
  exists c'. split; [done|]. intros r Hin.
  assert (MemberFlows.content r ∈ ledger (file c')) as Hc
    by (by apply list_elem_of_fmap_2).
  change (MemberFlows.note r) with (MemberFlows.v_note (MemberFlows.content r)).
  revert Hc. generalize (MemberFlows.content r). clear r Hin. intros v.
  rewrite Hl.
  intros [(d & H)|[(k & H)|[(k & H)|[(j & H)|(o & H)]]]]%elem_of_derived_flows.
  - unfold donation_flows in H. rule_records H. apply length_slice_to.
  - unfold contract_in_flows in H. rule_records H. simpl. lia.
  - unfold contract_out_flows in H. rule_records H; simpl; lia.
  - unfold industry_flows in H. rule_records H. apply length_slice_to.
  - unfold market_flows in H. rule_records H. apply length_slice_to.
Qed.

Lemma flow_notes_bounded_sample :
  fail_at sample_connection = None
  ∧ ∃ c', rebuild_member_flows sample_str_float sample_connection = (Ok tt, c')
      ∧ Forall (λ r, (String.length (MemberFlows.note r) ≤ 200)%nat)
          (MemberFlows.rows (member_flows (file c'))).
Proof.
  split; [reflexivity|].
  destruct (flow_notes_bounded sample_str_float sample_connection eq_refl)
    as (c' & Hr & Hl).
  exists c'. split; [exact Hr|]. apply Forall_forall. exact Hl.
Defined.








(** ** Donations derived from the wallet journal *)

Lemma NOT_IN_holds {A} `{EqDecision A} (x : option A) (l : list (option A)) :
  NOT_IN x l = Some true ↔ l = [] ∨ (is_Some x ∧ (x ∉ l) ∧ (None ∉ l)).
Proof.
  unfold NOT_IN. destruct l as [|y l]; [naive_solver|].
  destruct x as [a|].
  - destruct (decide (Some a ∈ y :: l)); [naive_solver|].
    destruct (decide (None ∈ y :: l)); naive_solver.
  - split; [done|]. intros [?|([? ?] & _)]; done.
Qed.

Lemma holds_new_donation (t : list Donations.row) (r : WalletJournal.row) :
  SQL.holds
    (SQL.AND (SQL.EQ (WalletJournal.ref_type r) "player_donation")
             (NOT_IN (WalletJournal.esi_id r) (journal_ids t))) = true
  ↔ WalletJournal.ref_type r = Some "player_donation"
    ∧ (journal_ids t = []
       ∨ (is_Some (WalletJournal.esi_id r)
          ∧ (WalletJournal.esi_id r ∉ journal_ids t)
          ∧ (None ∉ journal_ids t))).
Proof.
  rewrite <- NOT_IN_holds.
  destruct (WalletJournal.ref_type r) as [s|]; simpl.
  - destruct (decide (s = "player_donation")) as [->|Hne].
    + rewrite bool_decide_eq_true_2 by done.
      destruct (NOT_IN _ _) as [[]|]; naive_solver.
    + rewrite bool_decide_eq_false_2 by done.
      destruct (NOT_IN _ _) as [[]|]; naive_solver.
  - destruct (NOT_IN _ _) as [[]|]; naive_solver.
Qed.

(** The loop appends one donation per selected row, as long as no UNIQUE
    reference repeats. *)
Lemma insert_donations_filter (P : WalletJournal.row → bool)
    (l : list WalletJournal.row) (t : list Donations.row) :
  NoDup (omap WalletJournal.esi_id l) →
  (∀ r a, r ∈ l → P r = true → WalletJournal.esi_id r = Some a →
          Some a ∉ journal_ids t) →
  insert_donations
    ((λ r, (WalletJournal.esi_id r, WalletJournal.raw_json r)) <$>
     filter (λ r, P r) l) t
  = Some (t ++ (donation_of <$> filter (λ r, P r) l)).
Proof.
  revert t. induction l as [|r l IH]; intros t Hnd Hfresh.
  { simpl. by rewrite app_nil_r. }
  assert (NoDup (omap WalletJournal.esi_id l)) as Hnd'.
  { simpl in Hnd. destruct (WalletJournal.esi_id r); [by inversion Hnd | done]. }
  destruct (P r) eqn:HP.
  - rewrite filter_cons_True by (simpl; rewrite HP; exact I).
    rewrite !fmap_cons. cbn [insert_donations]. fold (donation_of r).
    assert (insert_donation t (donation_of r) = Some (t ++ [donation_of r])) as ->.
    { unfold insert_donation, donation_of. cbn [Donations.journal_esi_id].
      destruct (WalletJournal.esi_id r) as [a|] eqn:He; [|done].
      rewrite decide_False; [done|]. exact (Hfresh r a ltac:(left) HP He). }
    simpl. rewrite IH; [by rewrite <- app_assoc | done |].
    intros r' a Hin HP' He. unfold journal_ids. rewrite fmap_app, elem_of_app.
    intros [Hold|Hnew].
    + exact (Hfresh r' a ltac:(by right) HP' He Hold).
    + apply list_elem_of_singleton in Hnew. simpl in Hnew.
      simpl in Hnd. rewrite <- Hnew in Hnd. inversion Hnd as [|? ? Hnotin _].
      apply Hnotin. apply list_elem_of_omap. by exists r'.
  - rewrite filter_cons_False by (simpl; rewrite HP; intros []).
    apply IH; [done|]. intros r' a Hin. apply Hfresh. by right.
Qed.

(** X5. [update_donations_from_journal] appends: when the non-null
    [esi_id]s of the journal are distinct (the column is UNIQUE), it
    commits the donations it found followed by one donation per journal
    row, in table order, whose ref_type is 'player_donation' and whose
    [esi_id] is not yet referenced (the donations are empty, or the
    [esi_id] is non-null and absent from their references, none of which
    is NULL). The new donation carries the journal row's [esi_id], the
    entry's first_party_id and amount, and as description the entry's
    reason if it is a non-empty text, else its description if that is,
    else the empty text. *)
Theorem journal_donations_appended (journal : list WalletJournal.row)
    (t : list Donations.row) :
  NoDup (omap WalletJournal.esi_id journal) →
  update_donations_from_journal journal t
  = Some (t ++
      ((λ r,
         let data := WalletJournal.raw_json r in
         Donations.Row (WalletJournal.esi_id r)
           (WalletJournal.first_party_id data) (WalletJournal.amount data)
           (Some (match WalletJournal.reason data, WalletJournal.description data with
                  | Some reason, Some description =>
                      if decide (reason = "")
                      then (if decide (description = "") then "" else description)
                      else reason
                  | Some reason, None => if decide (reason = "") then "" else reason
                  | None, Some description =>
                      if decide (description = "") then "" else description
                  | None, None => ""
                  end)))
       <$> filter (λ r,
             WalletJournal.ref_type r = Some "player_donation"
             ∧ (journal_ids t = []
                ∨ (is_Some (WalletJournal.esi_id r)
                   ∧ (WalletJournal.esi_id r ∉ journal_ids t)
                   ∧ (None ∉ journal_ids t)))) journal)).
Proof.
  intros Hnd. unfold update_donations_from_journal, select_new_donations.
  pose (P := λ r, SQL.holds
    (SQL.AND (SQL.EQ (WalletJournal.ref_type r) "player_donation")
             (NOT_IN (WalletJournal.esi_id r) (journal_ids t)))).
  etrans; [apply (insert_donations_filter P journal t Hnd)|].
  - intros r a Hin HP He. unfold P in HP. apply holds_new_donation in HP.
    destruct HP as (_ & [Hnil|(_ & Hnotin & _)]).
    + rewrite Hnil. apply not_elem_of_nil.
    + by rewrite <- He.
  - do 2 f_equal.
    assert (filter (λ r, P r) journal
            = filter (λ r,
                WalletJournal.ref_type r = Some "player_donation"
                ∧ (journal_ids t = []
                   ∨ (is_Some (WalletJournal.esi_id r)
                      ∧ (WalletJournal.esi_id r ∉ journal_ids t)
                      ∧ (None ∉ journal_ids t)))) journal) as ->.
    { apply list_filter_iff. intros r. unfold P.
      rewrite <- holds_new_donation. by destruct (SQL.holds _). }
    apply fmap_pointwise. intros r. unfold donation_of, or_text. simpl.
    f_equal. f_equal. by repeat case_match.
Qed.

Lemma journal_donations_appended_sample :
  NoDup (omap WalletJournal.esi_id sample_journal)
  ∧ update_donations_from_journal sample_journal []
    = Some [Donations.Row (Some 11) (Some 7) (Some (Qc_of_Z 500)) (Some "thanks");
            Donations.Row (Some 13) (Some 9) (Some (Qc_of_Z 9))
              (Some "Nine deposited")].
Proof.
  assert (NoDup (omap WalletJournal.esi_id sample_journal)) as Hnd.
  { apply (bool_decide_unpack _). by vm_compute. }
  split; [exact Hnd|].
  rewrite (journal_donations_appended sample_journal [] Hnd). reflexivity.
Defined.

(** What a run of the loop that returns has appended. *)
Lemma insert_donations_Some (l : list WalletJournal.row) (t t' : list Donations.row) :
  insert_donations
    ((λ r, (WalletJournal.esi_id r, WalletJournal.raw_json r)) <$> l) t = Some t' →
  t' = t ++ (donation_of <$> l).
Proof.
  revert t. induction l as [|r l IH]; intros t; simpl.
  { intros [= <-]. by rewrite app_nil_r. }
  fold (donation_of r). unfold insert_donation.
  destruct (Donations.journal_esi_id (donation_of r)) as [j|].
  - destruct (decide (Some j ∈ journal_ids t)); [done|]. simpl.
    intros ->%IH. by rewrite <- app_assoc.
  - simpl. intros ->%IH. by rewrite <- app_assoc.
Qed.

Lemma filter_none {A} (P : A → Prop) `{∀ x, Decision (P x)} (l : list A) :
  (∀ x, x ∈ l → ¬ P x) → filter P l = [].
Proof.
  induction l as [|x l IH]; intros Hnone; [done|].
  rewrite filter_cons_False by (apply Hnone; left).
  apply IH. intros y Hy. apply Hnone. by right.
Qed.

(** X6. [update_donations_from_journal] is idempotent: after a run that
    committed, a second run on the same journal finds no new donation and
    commits the same table. *)
Theorem journal_donations_idempotent (journal : list WalletJournal.row)
    (t t' : list Donations.row) :
  update_donations_from_journal journal t = Some t' →
  select_new_donations journal t' = []
  ∧ update_donations_from_journal journal t' = Some t'.
Proof.
  unfold update_donations_from_journal. intros Hrun.
  assert (select_new_donations journal t' = []) as Hnone.
  { apply insert_donations_Some in Hrun. unfold select_new_donations.
    rewrite filter_none; [done|]. intros r Hr Hsel.
    apply Is_true_true, holds_new_donation in Hsel.
    destruct Hsel as (Href & Hnew).
    assert (journal_ids t'
            = journal_ids t
              ++ (WalletJournal.esi_id <$>
                  filter (λ r, SQL.holds
                    (SQL.AND (SQL.EQ (WalletJournal.ref_type r) "player_donation")
                             (NOT_IN (WalletJournal.esi_id r) (journal_ids t))))
                    journal)) as Hids.
    { rewrite Hrun. unfold journal_ids. rewrite fmap_app. f_equal.
      rewrite <- !list_fmap_compose. done. }
    assert (SQL.holds
              (SQL.AND (SQL.EQ (WalletJournal.ref_type r) "player_donation")
                       (NOT_IN (WalletJournal.esi_id r) (journal_ids t))) = true
            → WalletJournal.esi_id r ∈ journal_ids t') as Hthen.
    { intros Hsel. rewrite Hids, elem_of_app. right.
      apply list_elem_of_fmap_2, list_elem_of_filter. split; [|done].
      by apply Is_true_true. }
    destruct Hnew as [Hnil|(Hsome & Hnotin & Hnull)].
    - rewrite Hnil in Hthen. eapply not_elem_of_nil, Hthen.
      apply holds_new_donation. split; [done|]. left.
      rewrite Hids in Hnil. by apply app_eq_nil in Hnil as [? _].
    - apply Hnotin, Hthen. apply holds_new_donation. split; [done|]. right.
      rewrite Hids in Hnotin, Hnull. rewrite elem_of_app in Hnotin, Hnull.
      tauto. }
  by rewrite Hnone.
Qed.

Lemma journal_donations_idempotent_sample :
  ∃ t', update_donations_from_journal sample_journal [] = Some t'
        ∧ length t' = 2%nat
        ∧ update_donations_from_journal sample_journal t' = Some t'.
Proof.
  eexists. split; [reflexivity|]. split; [reflexivity|].
  apply (journal_donations_idempotent sample_journal []). reflexivity.
Defined.

(** X7. A donation without a journal reference stops the derivation:
    when some row of [donations] has a NULL [journal_esi_id], the NOT IN
    test is never true and [update_donations_from_journal] commits the
    table unchanged, whatever the journal holds. *)
Theorem journal_donations_blocked_by_null (journal : list WalletJournal.row)
    (t : list Donations.row) :
  None ∈ journal_ids t →
  update_donations_from_journal journal t = Some t.
Proof.
  intros Hnull. unfold update_donations_from_journal, select_new_donations.
  rewrite filter_none; [done|]. intros r _ Hsel.
  apply Is_true_true, holds_new_donation in Hsel.
  destruct Hsel as (_ & [Hnil|(_ & _ & Hno)]); [|done].
  rewrite Hnil in Hnull. by apply not_elem_of_nil in Hnull.
Qed.

Lemma journal_donations_blocked_sample :
  None ∈ journal_ids [Donations.Row None (Some 7) (Some (Qc_of_Z 1)) None]
  ∧ update_donations_from_journal sample_journal
      [Donations.Row None (Some 7) (Some (Qc_of_Z 1)) None]
    = Some [Donations.Row None (Some 7) (Some (Qc_of_Z 1)) None].
Proof.
  split; [apply list_elem_of_here|].
  apply journal_donations_blocked_by_null. apply list_elem_of_here.
Defined.

(** X8. From the journal to the ledger: when [update_donations_from_journal]
    has committed and the rebuild then runs on a store that does not fail,
    every journal row of type 'player_donation' that was new to the
    donations, with a first party and an amount, is in the ledger as an
    'in'/'wallet' record of that member and amount which references the
    journal row and whose note is the first 200 characters of the entry's
    reason, or of its description when the reason is missing or empty. *)
Theorem journal_donation_becomes_wallet_flow str_float (db : database)
    (journal : list WalletJournal.row) (t' : list Donations.row) clock
    (r : WalletJournal.row) (member : Z) (amount : Qc) :
  update_donations_from_journal journal (donations db) = Some t' →
  r ∈ journal →
  WalletJournal.ref_type r = Some "player_donation" →
  journal_ids (donations db) = []
  ∨ (is_Some (WalletJournal.esi_id r)
     ∧ (WalletJournal.esi_id r ∉ journal_ids (donations db))
     ∧ (None ∉ journal_ids (donations db))) →
  WalletJournal.first_party_id (WalletJournal.raw_json r) = Some member →
  WalletJournal.amount (WalletJournal.raw_json r) = Some amount →
  ∃ db', cmd_sync_flows str_float (with_donations db t') None clock = (Ok tt, db')
    ∧ MemberFlows.Values member "in" "wallet" None (WalletJournal.esi_id r) amount
        (slice_to 200
           (or_text (WalletJournal.reason (WalletJournal.raw_json r))
              (or_text (WalletJournal.description (WalletJournal.raw_json r)) "")))
      ∈ ledger db'.
Proof.
  intros Hrun Hin Href Hnew Hmember Hamount.
  destruct (cmd_sync_flows_completes str_float (with_donations db t') clock)
    as (db' & Hsync & Hl & _).
  exists db'. split; [done|]. rewrite Hl. unfold derived_flows.
  rewrite elem_of_app. left. apply list_elem_of_bind.
  exists (donation_of r). split.
  - unfold donation_flows, donation_of. simpl. rewrite Hmember, Hamount.
    apply list_elem_of_here.
  - simpl. unfold update_donations_from_journal, select_new_donations in Hrun.
    apply insert_donations_Some in Hrun. rewrite Hrun, elem_of_app. right.
    apply list_elem_of_fmap_2, list_elem_of_filter. split; [|done].
    apply Is_true_true, holds_new_donation. by split.
Qed.

Lemma journal_donation_becomes_wallet_flow_sample :
  ∃ db', cmd_sync_flows sample_str_float
           (with_donations sample_db
              [Donations.Row (Some 11) (Some 7) (Some (Qc_of_Z 500)) (Some "thanks");
               Donations.Row (Some 12) None (Some (Qc_of_Z 9)) None;
               Donations.Row (Some 13) (Some 9) (Some (Qc_of_Z 9))
                 (Some "Nine deposited")])
           None sample_clock = (Ok tt, db')
    ∧ MemberFlows.Values 9 "in" "wallet" None (Some 13) (Qc_of_Z 9)
        "Nine deposited" ∈ ledger db'.
Proof.
  apply (journal_donation_becomes_wallet_flow sample_str_float sample_db
           sample_journal _ sample_clock
           (WalletJournal.Row (Some 13) (Some "player_donation")
              (WalletJournal.Entry (Some 9) (Some (Qc_of_Z 9)) (Some "")
                 (Some "Nine deposited")))).
  - reflexivity.
  - apply list_elem_of_further, list_elem_of_further, list_elem_of_here.
  - reflexivity.
  - right. split; [by eexists|]. split; in_closed_list.
  - reflexivity.
  - reflexivity.
Defined.

(** ** The report of recent flows *)

Lemma text_compare_antisym (a b : option string) :
  text_compare a b = CompOpp (text_compare b a).
Proof. destruct a, b; simpl; try done. apply String.compare_antisym. Qed.

Lemma precedes_total datetime (a b : MemberFlows.row) :
  precedes datetime a b = false → precedes datetime b a = true.
Proof.
  unfold precedes. rewrite (text_compare_antisym (datetime (MemberFlows.created_at b))).
  destruct (text_compare _ _); simpl; try done.
  intros H%bool_decide_eq_false. apply bool_decide_eq_true. lia.
Qed.

Lemma insert_sorted_Permutation datetime r l :
  insert_sorted datetime r l ≡ₚ r :: l.
Proof.
  induction l as [|x l IH]; [done|]. simpl.
  destruct (precedes datetime r x); [done|]. rewrite IH. apply Permutation_swap.
Qed.

Lemma order_by_Permutation datetime t : order_by datetime t ≡ₚ t.
Proof.
  induction t as [|r t IH]; [done|]. unfold order_by in *. simpl.
  by rewrite insert_sorted_Permutation, IH.
Qed.

Lemma insert_sorted_HdRel datetime x r l :
  HdRel (λ a b, precedes datetime a b = true) x l →
  precedes datetime x r = true →
  HdRel (λ a b, precedes datetime a b = true) x (insert_sorted datetime r l).
Proof.
  intros Hhd Hxr. destruct l as [|y l]; simpl; [by constructor|].
  destruct (precedes datetime r y); constructor; [done|]. by inversion Hhd.
Qed.

Lemma insert_sorted_Sorted datetime r l :
  Sorted (λ a b, precedes datetime a b = true) l →
  Sorted (λ a b, precedes datetime a b = true) (insert_sorted datetime r l).
Proof.
  induction 1 as [|x l Hs IH Hhd]; simpl; [by repeat constructor|].
  destruct (precedes datetime r x) eqn:Hrx.
  - constructor; [by constructor | by constructor].
  - constructor; [done|]. apply insert_sorted_HdRel; [done|].
    by apply precedes_total.
Qed.

Lemma order_by_Sorted datetime t :
  Sorted (λ a b, precedes datetime a b = true) (order_by datetime t).
Proof.
  induction t as [|r t IH]; [constructor|]. by apply insert_sorted_Sorted.
Qed.

Lemma for_each_acc_snoc {X Y Z} (proj : X → Y) (out : X → Z)
    (body : Y → list Z → py (list Z)) (l : list X) acc c :
  (∀ x acc c, body (proj x) acc c = (Ok (acc ++ [out x]), c)) →
  for_each_acc (proj <$> l) acc body c = (Ok (acc ++ (out <$> l)), c).
Proof.
  intros Hbody. revert acc. induction l as [|x l IH]; intros acc.
  { simpl. by rewrite app_nil_r. }
  rewrite fmap_cons. simpl. unfold mbind, py_bind. rewrite Hbody, IH.
  by rewrite <- app_assoc.
Qed.

(** X9. [get_recent_member_flows] on a store that does not fail returns
    the dicts of the first [limit] rows of the ledger in the order of
    [ORDER BY datetime(created_at) DESC, id DESC] (all rows when [limit]
    is negative): the rows shown followed by the rows left out are a
    rearrangement of the ledger in which each row precedes the next, so a
    later timestamp comes first and, within one timestamp, a larger id;
    each dict carries the id, member, direction, source, value,
    created_at and note of its row. *)
Theorem recent_member_flows_newest_first (datetime : string → option string)
    (limit : Z) (c : connection) :
  fail_at c = None →
  ∃ c' shown rest,
    get_recent_member_flows datetime limit c = (Ok (dict_of <$> shown), c')
    ∧ shown ++ rest ≡ₚ MemberFlows.rows (view c)
    ∧ Sorted (λ a b, precedes datetime a b = true) (shown ++ rest)
    ∧ length shown
      = if decide (limit < 0) then length (MemberFlows.rows (view c))
        else Nat.min (Z.to_nat limit) (length (MemberFlows.rows (view c))).
Proof.
  intros Hf. set (t := MemberFlows.rows (view c)).
  destruct (execute_select_flows_ok (select_recent_flows datetime limit) c Hf)
    as (c' & Hsel & _).
  set (sorted := order_by datetime t).
  assert (length sorted = length t) as Hlen
    by apply Permutation_length, order_by_Permutation.
  exists c', (LIMIT limit sorted),
    (if decide (limit < 0) then [] else drop (Z.to_nat limit) sorted).
  split.
  { unfold get_recent_member_flows, mbind, py_bind. rewrite Hsel. fold t.
    unfold select_recent_flows. fold sorted.
    rewrite (for_each_acc_snoc _ dict_of); [done|].
    intros r acc c0. simpl. unfold dict_of.
    destruct (decide (MemberFlows.value_isk r = 0%Qc)) as [->|];
      destruct (decide (MemberFlows.note r = "")) as [->|]; done. }
  assert (LIMIT limit sorted
          ++ (if decide (limit < 0) then [] else drop (Z.to_nat limit) sorted)
          = sorted) as Hall.
  { unfold LIMIT. destruct (decide (limit < 0)); [apply app_nil_r|].
    apply take_drop. }
  rewrite Hall. split; [apply order_by_Permutation|].
  split; [apply order_by_Sorted|].
  unfold LIMIT. destruct (decide (limit < 0)); [done|].
  by rewrite length_take, Hlen.
Qed.

Lemma recent_member_flows_newest_first_sample :
  fail_at (connect (with_member_flows sample_db (MemberFlows.Table sample_rows 3))
             None sample_clock) = None
  ∧ ∃ c' shown,
      get_recent_member_flows Some 2
        (connect (with_member_flows sample_db (MemberFlows.Table sample_rows 3))
           None sample_clock)
      = (Ok (dict_of <$> shown), c')
      ∧ length shown = 2%nat.
Proof.
  split; [reflexivity|].
  destruct (recent_member_flows_newest_first Some 2
              (connect (with_member_flows sample_db (MemberFlows.Table sample_rows 3))
                 None sample_clock) eq_refl)
    as (c' & shown & rest & Hrun & _ & _ & Hlen).
  exists c', shown. split; [exact Hrun | exact Hlen].
Defined.

Lemma length_slice_to_min n s :
  String.length (slice_to n s) = Nat.min n (String.length s).
Proof.
  unfold slice_to. revert n. induction s as [|a s IH]; intros [|n]; simpl; try done.
  by rewrite IH.
Qed.

Lemma length_append (a b : string) :
  String.length (a +:+ b) = (String.length a + String.length b)%nat.
Proof. induction a as [|x a IH]; simpl; [done|]. by rewrite IH. Qed.

Lemma slice_to_append (a b : string) :
  slice_to (String.length a) (a +:+ b) = a.
Proof.
  unfold slice_to. induction a as [|x a IH]; simpl; [by destruct b|].
  by rewrite IH.
Qed.

Lemma length_replace (old new : Ascii.ascii) (s : string) :
  String.length (replace old new s) = String.length s.
Proof. induction s as [|a s IH]; [done|]. simpl. by rewrite IH. Qed.

Lemma contains_replace (old new : Ascii.ascii) (s : string) :
  new ≠ old → contains old (replace old new s) = false.
Proof.
  intros Hne. induction s as [|a s IH]; [done|]. simpl. rewrite IH, orb_false_r.
  destruct (Ascii.eqb a old) eqn:E; [by apply Ascii.eqb_neq | exact E].
Qed.

Lemma replace_absent (old new : Ascii.ascii) (s : string) :
  contains old s = false → replace old new s = s.
Proof.
  induction s as [|a s IH]; [done|]. simpl.
  intros [Ha Hs]%orb_false_iff. by rewrite Ha, IH.
Qed.

Lemma contains_slice_to (a : Ascii.ascii) n (s : string) :
  contains a s = false → contains a (slice_to n s) = false.
Proof.
  unfold slice_to. revert n. induction s as [|b s IH]; intros [|n]; simpl; try done.
  intros [Hb Hs]%orb_false_iff. by rewrite Hb, IH.
Qed.

(** X10. The timestamp of a report line: [created_disp] is the first 16
    characters of the timestamp with every "T" replaced by a space,
    whichever branch the code takes; so it has at most 16 characters, it
    never holds a "T", and an ISO timestamp "YYYY-MM-DDTHH:MM:SS" and the
    store's "YYYY-MM-DD HH:MM:SS" both show as "YYYY-MM-DD HH:MM". *)
Theorem created_disp_trimmed (created : string) :
  created_disp created = slice_to 16 (replace "T"%char " "%char created)
  ∧ String.length (created_disp created) = Nat.min 16 (String.length created)
  ∧ contains "T"%char (created_disp created) = false
  ∧ created_disp "2025-11-22T17:05:00" = "2025-11-22 17:05"
  ∧ created_disp "2025-11-22 17:05:00" = "2025-11-22 17:05".
Proof.
  assert (created_disp created = slice_to 16 (replace "T"%char " "%char created))
    as Heq.
  { unfold created_disp.
    destruct (contains "T"%char created) eqn:HT.
    - destruct created; [done|]. done.
    - rewrite andb_false_r. by rewrite replace_absent. }
  split; [exact Heq|]. rewrite Heq.
  split; [by rewrite length_slice_to_min, length_replace|].
  split; [apply contains_slice_to, contains_replace; discriminate|].
  split; reflexivity.
Qed.

(** X11. The note of a report line: [report_note] never has more than 80
    characters; a note of at most 80 characters is shown as it is; a
    longer one is shown as 80 characters, its first 77 followed by
    "...". *)
Theorem report_note_bounded (note : string) :
  (String.length (report_note note) ≤ 80)%nat
  ∧ ((String.length note ≤ 80)%nat → report_note note = note)
  ∧ ((80 < String.length note)%nat →
     String.length (report_note note) = 80%nat
     ∧ slice_to 77 (report_note note) = slice_to 77 note
     ∧ substring 77 3 (report_note note) = "...").
Proof.
  unfold report_note. destruct (decide (80 < String.length note)%nat) as [Hlong|Hshort].
  - assert (String.length (slice_to 77 note) = 77%nat) as Hlen
      by (rewrite length_slice_to_min; lia).
    split; [rewrite length_append, Hlen; simpl; lia|].
    split; [lia|]. intros _.
    split; [rewrite length_append, Hlen; simpl; lia|].
    split.
    + rewrite <- Hlen at 1. apply slice_to_append.
    + rewrite <- Hlen at 1. generalize (slice_to 77 note). clear.
      intros s. induction s as [|a s IH]; [done|]. simpl. exact IH.
  - split; [lia|]. split; [done|]. lia.
Qed.

(** ** Which storage failures stop a rebuild *)

Lemma makes_calls_ret db : makes_calls db (mret tt) 0.
Proof.
  intros c Hf. simpl. split; [done|]. split; [done|]. split; [lia|].
  intros k _. lia.
Qed.

Lemma makes_calls_seq db (m m' : py unit) n n' :
  makes_calls db m n → makes_calls db m' n' → makes_calls db (m ;; m') (n + n').
Proof.
  intros Hm Hm' c Hf. unfold mbind, py_bind.
  specialize (Hm c Hf). destruct (m c) as [[[]|e] c1].
  - destruct Hm as (Hf1 & Hfa & Hc1 & Hk1).
    specialize (Hm' c1 Hf1). destruct (m' c1) as [[[]|e] c2].
    + destruct Hm' as (Hf2 & Hfa2 & Hc2 & Hk2).
      split; [done|]. split; [congruence|]. split; [lia|].
      intros k Hk. specialize (Hk1 k Hk). rewrite Hfa in Hk2.
      specialize (Hk2 k Hk). lia.
    + destruct Hm' as (k & Hk & Hrange). exists k. split; [congruence|]. lia.
  - destruct Hm as (k & Hk & Hrange). exists k. split; [done|]. lia.
Qed.

Lemma makes_calls_storage db (op : connection → unit * connection) :
  (∀ c, file (op c).2 = file c ∧ fail_at (op c).2 = fail_at c
        ∧ calls (op c).2 = calls c) →
  makes_calls db (storage_call op) 1.
Proof.
  intros Hop c Hf. unfold storage_call.
  destruct (decide (fail_at c = Some (calls c))) as [Hfail|Hok]; simpl.
  - exists (calls c). split; [done|]. lia.
  - destruct (Hop c) as (H1 & H2 & H3). destruct (op c) as [[] c1]. simpl in *.
    split; [congruence|]. split; [done|]. split; [lia|].
    intros k Hk. rewrite Hk in Hok.
    destruct (decide (k = calls c)) as [->|]; [done|]. lia.
Qed.

Lemma makes_calls_insert db v : makes_calls db (execute_insert_member_flows v) 1.
Proof. by apply makes_calls_storage. Qed.

Lemma makes_calls_for_each_select {A B} db (P : A → bool) (g : A → B)
    (body : B → py unit) (f : A → list MemberFlows.values) (l : list A) :
  (∀ x, P x = true → makes_calls db (body (g x)) (length (f x))) →
  (∀ x, P x = false → f x = []) →
  makes_calls db (for_each (g <$> filter (λ x, P x) l) body) (length (l ≫= f)).
Proof.
  intros Hsel Hrej. induction l as [|x l IH]; [apply makes_calls_ret|].
  rewrite bind_cons, length_app. destruct (P x) eqn:E.
  - rewrite filter_cons_True by (simpl; rewrite E; exact I).
    rewrite fmap_cons. simpl. apply makes_calls_seq; [by apply Hsel | apply IH].
  - rewrite filter_cons_False by (simpl; rewrite E; intros []).
    by rewrite (Hrej x E).
Qed.

Lemma makes_calls_for_each_fmap {A B} db (g : A → B) (body : B → py unit)
    (f : A → list MemberFlows.values) (l : list A) :
  (∀ x, makes_calls db (body (g x)) (length (f x))) →
  makes_calls db (for_each (g <$> l) body) (length (l ≫= f)).
Proof.
  intros Hbody. induction l as [|x l IH]; [apply makes_calls_ret|].
  rewrite bind_cons, length_app, fmap_cons. simpl.
  apply makes_calls_seq; [apply Hbody | apply IH].
Qed.

Lemma ends_after_seq db (m m' : py unit) n n' :
  makes_calls db m n → ends_after db m' n' → ends_after db (m ;; m') (n + n').
Proof.
  intros Hm Hm' c Hf. unfold mbind, py_bind.
  specialize (Hm c Hf). destruct (m c) as [[[]|e] c1].
  - destruct Hm as (Hf1 & Hfa & Hc1 & Hk1).
    specialize (Hm' c1 Hf1). destruct (m' c1) as [[[]|e] c2].
    + destruct Hm' as (Hfa2 & Hc2 & Hk2).
      split; [congruence|]. split; [lia|].
      intros k Hk. specialize (Hk1 k Hk). rewrite Hfa in Hk2.
      specialize (Hk2 k Hk). lia.
    + destruct Hm' as (k & Hk & Hrange). exists k. split; [congruence|]. lia.
  - destruct Hm as (k & Hk & Hrange). exists k. split; [done|]. lia.
Qed.

Lemma ends_after_select {A} db (query : database → list A) (k : list A → py unit) n :
  ends_after db (k (query db)) n → ends_after db (execute_select query ≫= k) (S n).
Proof.
  intros Hk c Hf. unfold mbind, py_bind, execute_select, storage_call.
  destruct (decide (fail_at c = Some (calls c))) as [Hfail|Hok]; simpl.
  - exists (calls c). split; [done|]. lia.
  - rewrite Hf.
    specialize (Hk (Connection db (uncommitted c) (S (calls c)) (fail_at c)
                      (clock c)) eq_refl).
    destruct (k (query db) _) as [[[]|e] c1]; simpl in *.
    + destruct Hk as (Hfa & Hc & Hrange). split; [done|]. split; [lia|].
      intros j Hj. specialize (Hrange j Hj). rewrite Hj in Hok.
      destruct (decide (j = calls c)) as [->|]; [done|]. lia.
    + destruct Hk as (j & Hj & Hrange). exists j. split; [done|]. lia.
Qed.

Lemma ends_after_commit db (m : py unit) n :
  makes_calls db m n → ends_after db (m ;; commit) (n + 1).
Proof.
  intros Hm. apply ends_after_seq; [done|].
  intros c Hf. unfold commit, storage_call.
  destruct (decide (fail_at c = Some (calls c))) as [Hfail|Hok]; simpl.
  - exists (calls c). split; [done|]. lia.
  - split; [done|]. split; [lia|]. intros k Hk. rewrite Hk in Hok.
    destruct (decide (k = calls c)) as [->|]; [done|]. lia.
Qed.

(** Closes the goal for the storage calls of one loop body. *)
Ltac loop_calls :=
  repeat first
    [ progress (cbn [int float float_of_int is_None orb negb andb SQL.holds SQL.AND
                    SQL.OR SQL.EQ SQL.IS_NULL SQL.IS_NOT_NULL default length] in *)
    | discriminate
    | progress rewrite ?ret_bind, ?int_or_0_default, ?or_0_Some in *
    | case_bool_decide
    | apply makes_calls_ret
    | apply makes_calls_insert
    | apply (makes_calls_seq _ _ _ 1 1)
    | done
    | progress intros ].

(** The rebuild makes seven storage calls (the DELETE, five SELECTs and
    the commit) and one per record. *)
Lemma rebuild_member_flows_calls str_float :
  ∀ db, ends_after db (rebuild_member_flows str_float)
          (7 + length (derived_flows str_float db)).
Proof.
  intros db. unfold rebuild_member_flows, derived_flows.
  rewrite !length_app.
  replace (7 + (length (donations db ≫= donation_flows)
                + (length (contracts db ≫= contract_in_flows)
                   + (length (contracts db ≫= contract_out_flows)
                      + (length (industry_jobs db ≫= industry_flows)
                         + length (market_orders db ≫= market_flows str_float))))))%nat
    with (1 + S (length (donations db ≫= donation_flows)
                 + S (length (contracts db ≫= contract_in_flows)
                      + S (length (contracts db ≫= contract_out_flows)
                           + S (length (industry_jobs db ≫= industry_flows)
                                + S (length (market_orders db
                                             ≫= market_flows str_float) + 1))))))%nat
    by lia.
  apply ends_after_seq.
  { apply makes_calls_storage. done. }
  apply ends_after_select, ends_after_seq.
  { apply makes_calls_for_each_fmap. intros [j m a d]. unfold donation_flows. simpl.
    destruct m, a; loop_calls. }
  apply ends_after_select, ends_after_seq.
  { apply makes_calls_for_each_select.
    - intros [cid iss ass st fc pr jan]. unfold contract_in_flows, donation_contract.
      simpl. destruct pr, st, jan, iss; loop_calls.
    - intros [cid iss ass st fc pr jan]. unfold contract_in_flows, donation_contract.
      simpl. destruct pr, st, jan, iss; loop_calls. }
  apply ends_after_select, ends_after_seq.
  { apply makes_calls_for_each_select.
    - intros [cid iss ass st fc pr jan]. unfold contract_out_flows.
      simpl. destruct fc, pr, st, jan, ass; loop_calls.
    - intros [cid iss ass st fc pr jan]. unfold contract_out_flows.
      simpl. destruct fc, pr, st, jan, ass; loop_calls. }
  apply ends_after_select, ends_after_seq.
  { apply makes_calls_for_each_select.
    - intros [jid ins pt rn co st]. unfold industry_flows.
      simpl. destruct st, co, ins; loop_calls.
    - intros [jid ins pt rn co st]. unfold industry_flows.
      simpl. destruct st, co, ins; loop_calls. }
  apply ends_after_select, ends_after_commit.
  apply makes_calls_for_each_select.
  - intros [oid vt vr pr bo ib st hi]. unfold market_flows, sold.
    simpl. destruct hi, bo, ib, pr, vt; loop_calls.
  - intros [oid vt vr pr bo ib st hi]. unfold market_flows, sold.
    simpl. destruct hi, bo, ib, pr, vt; loop_calls.
Qed.

(** X12. Every storage failure of a rebuild reaches the caller. A run
    of [cmd_sync_flows] makes 7 storage calls (the DELETE, the five
    SELECTs, the commit) and one per record it derives. When the call
    numbered [k] (from 0) is the one that fails and it is among them, the
    command raises the storage error and the file is as it was; when it
    is not, the command returns with the complete ledger. *)
Theorem sync_flows_storage_failure str_float (db : database) (k : nat) clock :
  let n := (7 + length (derived_flows str_float db))%nat in
  ((k < n)%nat →
   cmd_sync_flows str_float db (Some k) clock = (Raise OperationalError, db))
  ∧ ((n ≤ k)%nat →
     ∃ db', cmd_sync_flows str_float db (Some k) clock = (Ok tt, db')
            ∧ ledger db' = derived_flows str_float db).
Proof.
  intros n. unfold cmd_sync_flows.
  pose proof (rebuild_member_flows_rebuilt str_float (connect db (Some k) clock))
    as Hrebuilt.
  pose proof (rebuild_member_flows_calls str_float db (connect db (Some k) clock)
                eq_refl) as Hcalls.
  unfold rebuilt in Hrebuilt. fold n in Hcalls.
  destruct (rebuild_member_flows str_float (connect db (Some k) clock))
    as [[[]|e] c']; simpl in *.
  - destruct Hcalls as (_ & _ & Hrange). specialize (Hrange k eq_refl).
    destruct Hrebuilt as (_ & _ & _ & t' & Hf & new & Hrows & Hc & _).
    split; [intros; lia|]. intros _. exists (file c'). split; [done|].
    rewrite Hf. unfold ledger. simpl in *. by rewrite Hrows.
  - destruct Hcalls as (k' & [= <-] & Hrange).
    destruct Hrebuilt as (-> & -> & _).
    split; [done|]. intros; lia.
Qed.

(** ** The wallet journal sync *)

Section SyncWalletFacts.

Variable esi_get : Z → ESI.response.

Lemma grows_refl t : grows esi_get t t.
Proof.
  exists []. rewrite app_nil_r. repeat split; [|constructor|];
    intros r Hr; by apply elem_of_nil in Hr.
Qed.

Lemma grows_trans t1 t2 t3 :
  grows esi_get t1 t2 → grows esi_get t2 t3 → grows esi_get t1 t3.
Proof.
  intros (n1 & -> & Hs1 & Hd1 & Hf1) (n2 & -> & Hs2 & Hd2 & Hf2).
  exists (n1 ++ n2). rewrite app_assoc. split; [done|]. split; [|split].
  - intros r [?|?]%elem_of_app; auto.
  - rewrite fmap_app. apply NoDup_app. split; [done|]. split; [|done].
    intros x Hx1 Hx2. apply list_elem_of_fmap in Hx2 as (r & -> & Hr).
    apply (Hf2 r Hr). rewrite fmap_app, elem_of_app. by right.
  - intros r [Hr|Hr]%elem_of_app; [by apply Hf1|].
    intros Hin. apply (Hf2 r Hr). rewrite fmap_app, elem_of_app. by left.
Qed.

Lemma insert_journal_entry_grows t e :
  served esi_get e → grows esi_get t (insert_journal_entry t e).
Proof.
  intros He. unfold insert_journal_entry.
  destruct (decide (Some (ESI.id e) ∈ WalletJournal.esi_id <$> t)) as [|Hnew];
    [apply grows_refl|].
  exists [journal_row e]. split; [done|]. split; [|split].
  - intros r ->%list_elem_of_singleton. by exists e.
  - simpl. apply NoDup_singleton.
  - by intros r ->%list_elem_of_singleton.
Qed.

Lemma foldl_insert_grows data t :
  (∀ e, e ∈ data → served esi_get e) →
  grows esi_get t (foldl insert_journal_entry t data).
Proof.
  revert t. induction data as [|e data IH]; intros t Hserved; [apply grows_refl|].
  simpl. eapply grows_trans.
  - apply insert_journal_entry_grows, Hserved. left.
  - apply IH. intros e' He'. apply Hserved. by right.
Qed.

Lemma grows_ids t t' x :
  grows esi_get t t' → x ∈ WalletJournal.esi_id <$> t → x ∈ WalletJournal.esi_id <$> t'.
Proof. intros (new & -> & _) Hx. rewrite fmap_app, elem_of_app. by left. Qed.

Lemma insert_journal_entry_id t e :
  Some (ESI.id e) ∈ WalletJournal.esi_id <$> insert_journal_entry t e.
Proof.
  unfold insert_journal_entry.
  destruct (decide (Some (ESI.id e) ∈ WalletJournal.esi_id <$> t)); [done|].
  rewrite fmap_app, elem_of_app. right. simpl. left.
Qed.

Lemma foldl_insert_ids data t e :
  e ∈ data →
  Some (ESI.id e) ∈ WalletJournal.esi_id <$> foldl insert_journal_entry t data.
Proof.
  revert t. induction data as [|e' data IH]; intros t He.
  { by apply elem_of_nil in He. }
  simpl. apply elem_of_cons in He as [->|He]; [|by apply IH].
  assert (∀ data t x, x ∈ WalletJournal.esi_id <$> t →
            x ∈ WalletJournal.esi_id <$> foldl insert_journal_entry t data) as Hmono.
  { clear. intros data. induction data as [|e data IH]; intros t x Hx; [done|].
    simpl. apply IH. unfold insert_journal_entry.
    destruct (decide _); [done|]. rewrite fmap_app, elem_of_app. by left. }
  apply Hmono, insert_journal_entry_id.
Qed.

Lemma foldl_insert_absorbed data u :
  (∀ e, e ∈ data → Some (ESI.id e) ∈ WalletJournal.esi_id <$> u) →
  foldl insert_journal_entry u data = u.
Proof.
  induction data as [|e data IH]; intros Hall; [done|]. simpl.
  unfold insert_journal_entry at 2.
  rewrite decide_True by (apply Hall; left).
  apply IH. intros e' He'. apply Hall. by right.
Qed.

Lemma sync_pages_grows fuel page t0 t result :
  sync_pages esi_get fuel page t0 t = Some result →
  match result with
  | Returned t' => grows esi_get t t'
  | Raised t' => t' = t0
  end.
Proof.
  revert page t. induction fuel as [|fuel IH]; intros page t; [done|]. simpl.
  destruct (esi_get page) as [|data x_pages] eqn:Hget.
  { by intros [= <-]. }
  destruct data as [|e data].
  { intros [= <-]. apply grows_refl. }
  assert (grows esi_get t (foldl insert_journal_entry t (e :: data))) as Hg.
  { apply foldl_insert_grows. intros e' He'. by exists page, (e :: data), x_pages. }
  destruct x_pages as [n|]; [|by intros [= <-]].
  destruct (decide (page >= n)); [by intros [= <-]|].
  intros Hrest. specialize (IH _ _ Hrest).
  destruct result; [|done]. by eapply grows_trans.
Qed.

Lemma sync_pages_absorbed fuel page t0 t t' u0 u :
  sync_pages esi_get fuel page t0 t = Some (Returned t') →
  (∀ x, x ∈ WalletJournal.esi_id <$> t' → x ∈ WalletJournal.esi_id <$> u) →
  sync_pages esi_get fuel page u0 u = Some (Returned u).
Proof.
  revert page t. induction fuel as [|fuel IH]; intros page t; [done|]. simpl.
  destruct (esi_get page) as [|data x_pages] eqn:Hget; [done|].
  destruct data as [|e data]; [done|].
  intros Hrun Hsub.
  assert (grows esi_get (foldl insert_journal_entry t (e :: data)) t') as Hg.
  { destruct x_pages as [n|]; [|injection Hrun as <-; apply grows_refl].
    destruct (decide (page >= n)); [injection Hrun as <-; apply grows_refl|].
    apply (sync_pages_grows _ _ _ _ _ Hrun). }
  assert (foldl insert_journal_entry u (e :: data) = u) as Habs.
  { apply foldl_insert_absorbed. intros e' He'.
    apply Hsub, (grows_ids _ _ _ Hg), foldl_insert_ids, He'. }
  simpl in Habs. simpl. rewrite Habs.
  destruct x_pages as [n|]; [|done].
  destruct (decide (page >= n)); [done|].
  by apply (IH _ _ Hrun).
Qed.

End SyncWalletFacts.



(** X14. [sync_wallet_journal] is idempotent: when a sync has committed,
    a second sync against the same ESI pages skips every entry and
    commits the same journal. *)
Theorem sync_wallet_journal_idempotent (esi_get : Z → ESI.response) (fuel : nat)
    (t t' : list WalletJournal.row) :
  sync_wallet_journal esi_get fuel t = Some (Returned t') →
  sync_wallet_journal esi_get fuel t' = Some (Returned t').
Proof.
  intros Hrun. by apply (sync_pages_absorbed esi_get fuel 1 t t t' t' t' Hrun).
Qed.

Lemma sync_wallet_journal_idempotent_sample :
  ∃ t', sync_wallet_journal sample_esi_get 5 [] = Some (Returned t')
        ∧ length t' = 3%nat
        ∧ sync_wallet_journal sample_esi_get 5 t' = Some (Returned t').
Proof.
  eexists. split; [reflexivity|]. split; [reflexivity|].
  apply (sync_wallet_journal_idempotent sample_esi_get 5 []). reflexivity.
Defined.

(** X15. The loop of [sync_wallet_journal] ends: when no page of ESI
    announces more than [pages] pages in X-Pages, the sync ends within
    [pages] requests (one, if [pages] is less than 1), by a commit or by
    the exception of a request. *)
Theorem sync_wallet_journal_ends (esi_get : Z → ESI.response) (pages : Z)
    (t : list WalletJournal.row) :
  (∀ page data n, esi_get page = ESI.Page data (Some n) → n ≤ pages) →
  ∃ result, sync_wallet_journal esi_get (S (Z.to_nat (pages - 1))) t = Some result.
Proof.
  intros Hbound. unfold sync_wallet_journal.
  assert (∀ fuel page t0 t, pages - page < Z.of_nat fuel → (0 < fuel)%nat →
            ∃ result, sync_pages esi_get fuel page t0 t = Some result) as Hends.
  { induction fuel as [|fuel IH]; intros page t0 t1 Hfuel Hpos; [lia|]. simpl.
    destruct (esi_get page) as [|data x_pages] eqn:Hget; [by eexists|].
    destruct data as [|e data]; [by eexists|].
    destruct x_pages as [n|]; [|by eexists].
    destruct (decide (page >= n)); [by eexists|].
    specialize (Hbound page _ n Hget). apply IH; lia. }
  apply Hends; lia.
Qed.

Lemma sync_wallet_journal_ends_sample :
  (∀ page data n, sample_esi_get page = ESI.Page data (Some n) → n ≤ 2)
  ∧ ∃ result, sync_wallet_journal sample_esi_get 2 [] = Some result.
Proof.
  assert (∀ page data n, sample_esi_get page = ESI.Page data (Some n) → n ≤ 2)
    as Hbound.
  { intros page data n. unfold sample_esi_get.
    destruct (decide (page = 1)); [intros [= _ <-]; lia|].
    destruct (decide (page = 2)); [intros [= _ <-]; lia|]. discriminate. }
  split; [exact Hbound|].
  exact (sync_wallet_journal_ends sample_esi_get 2 [] Hbound).
Defined.

Lemma NoDup_fmap_omap {A B} (f : A → option B) (l : list A) :
  NoDup (f <$> l) → NoDup (omap f l).
Proof.
  induction l as [|x l IH]; [constructor|]. rewrite fmap_cons.
  intros [Hx Hl]%NoDup_cons. simpl. destruct (f x) as [y|] eqn:E; [|by apply IH].
  apply NoDup_cons. split; [|by apply IH].
  intros (x' & Hx' & Hy)%list_elem_of_omap. apply Hx. rewrite <- Hy.
  by apply list_elem_of_fmap_2.
Qed.

Lemma journal_ids_donation_of (l : list WalletJournal.row) :
  journal_ids (donation_of <$> l) = WalletJournal.esi_id <$> l.
Proof. unfold journal_ids. by rewrite <- list_fmap_compose. Qed.

(** X16. [cmd_sync_wallet] keeps the two tables consistent. From a
    journal whose [esi_id]s are non-null and distinct and donations whose
    journal references are non-null and distinct, a command whose ESI
    requests succeed returns; the committed journal and donations again
    have non-null, distinct ids and references; the old donations are
    kept in front of the new ones; and every journal row of type
    'player_donation' is referenced by a donation. *)
Theorem cmd_sync_wallet_consistent (esi_get : Z → ESI.response) (fuel : nat)
    (journal j' : list WalletJournal.row) (donations : list Donations.row) :
  NoDup (WalletJournal.esi_id <$> journal) →
  None ∉ WalletJournal.esi_id <$> journal →
  NoDup (journal_ids donations) →
  None ∉ journal_ids donations →
  sync_wallet_journal esi_get fuel journal = Some (Returned j') →
  ∃ d', cmd_sync_wallet esi_get fuel journal donations = Some (Returned (j', d'))
    ∧ NoDup (WalletJournal.esi_id <$> j')
    ∧ (None ∉ WalletJournal.esi_id <$> j')
    ∧ NoDup (journal_ids d')
    ∧ (None ∉ journal_ids d')
    ∧ (∃ new, d' = donations ++ new)
    ∧ ∀ r, r ∈ j' → WalletJournal.ref_type r = Some "player_donation" →
           WalletJournal.esi_id r ∈ journal_ids d'.
Proof.
  intros Hnd Hnn Hdnd Hdnn Hsync.
  pose proof (sync_pages_grows _ _ _ _ _ _ Hsync)
    as (new & -> & Hserved & Hnew & Hfresh).
  assert (NoDup (WalletJournal.esi_id <$> journal ++ new)) as Hnd'.
  { rewrite fmap_app. apply NoDup_app. split; [done|]. split; [|done].
    intros x Hx (r & -> & Hr)%list_elem_of_fmap. by apply (Hfresh r Hr). }
  assert (None ∉ WalletJournal.esi_id <$> journal ++ new) as Hnn'.
  { rewrite fmap_app, elem_of_app. intros [?|(r & Hnone & Hr)%list_elem_of_fmap]; [done|].
    destruct (Hserved r Hr) as (e & _ & ->). done. }
  set (j' := journal ++ new) in *.
  pose (P := λ r, SQL.holds
    (SQL.AND (SQL.EQ (WalletJournal.ref_type r) "player_donation")
             (NOT_IN (WalletJournal.esi_id r) (journal_ids donations)))).
  assert (update_donations_from_journal j' donations
          = Some (donations ++ (donation_of <$> filter (λ r, P r) j'))) as Hupd.
  { apply (insert_donations_filter P j' donations).
    - by apply NoDup_fmap_omap.
    - intros r a Hin HP He. unfold P in HP. apply holds_new_donation in HP.
      destruct HP as (_ & [Hnil|(_ & Hnotin & _)]).
      + rewrite Hnil. apply not_elem_of_nil.
      + by rewrite <- He. }
  exists (donations ++ (donation_of <$> filter (λ r, P r) j')).
  split; [unfold cmd_sync_wallet; by rewrite Hsync, Hupd|].
  split; [done|]. split; [done|].
  assert (journal_ids (donations ++ (donation_of <$> filter (λ r, P r) j'))
          = journal_ids donations
            ++ (WalletJournal.esi_id <$> filter (λ r, P r) j')) as Hids.
  { unfold journal_ids at 1. rewrite fmap_app. f_equal. apply journal_ids_donation_of. }
  rewrite Hids. split; [|split; [|split]].
  - apply NoDup_app. split; [done|]. split.
    + intros x Hx (r & -> & [HP _]%list_elem_of_filter)%list_elem_of_fmap.
      apply Is_true_true, holds_new_donation in HP.
      destruct HP as (_ & [Hnil|(_ & Hnotin & _)]); [|done].
      rewrite Hnil in Hx. by apply elem_of_nil in Hx.
    + apply (sublist_NoDup _ (WalletJournal.esi_id <$> j')); [exact Hnd'|].
      apply fmap_sublist, sublist_filter.
  - rewrite elem_of_app.
    intros [?|(r & Hnone & [_ Hr]%list_elem_of_filter)%list_elem_of_fmap]; [done|].
    apply Hnn'. rewrite Hnone. by apply list_elem_of_fmap_2.
  - by eexists.
  - intros r Hr Href. rewrite elem_of_app.
    destruct (decide (WalletJournal.esi_id r ∈ journal_ids donations)) as [|Hnotin];
      [by left|right].
    apply list_elem_of_fmap_2, list_elem_of_filter. split; [|done].
    apply Is_true_true, holds_new_donation. split; [done|]. right.
    split; [|done].
    destruct (WalletJournal.esi_id r) eqn:E; [done|].
    exfalso. apply Hnn'. rewrite <- E. by apply list_elem_of_fmap_2.
Qed.

Lemma cmd_sync_wallet_consistent_sample :
  ∃ j' d', cmd_sync_wallet sample_esi_get 5 [] [] = Some (Returned (j', d'))
    ∧ WalletJournal.esi_id <$> j' = [Some 11; Some 12; Some 13]
    ∧ NoDup (journal_ids d')
    ∧ ∀ r, r ∈ j' → WalletJournal.ref_type r = Some "player_donation" →
           WalletJournal.esi_id r ∈ journal_ids d'.
Proof.
  destruct (cmd_sync_wallet_consistent sample_esi_get 5 [] _ []
              (NoDup_nil_2) (not_elem_of_nil _) (NoDup_nil_2) (not_elem_of_nil _)
              eq_refl)
    as (d' & Hrun & _ & _ & Hnd & _ & _ & Hcover).
  eexists _, d'. split; [exact Hrun|]. split; [reflexivity|].
  split; [exact Hnd | exact Hcover].
Defined.

(** ** Syncs that insert what is absent *)

(** A loop that appends the row of each entry whose key is not in the
    table appends rows with keys that were not there, and nothing else. *)
Lemma foldl_insert_absent {E R} (key : R → option Z) (key_of : E → Z)
    (row : E → R) (ins : list R → E → list R) :
  (∀ t e, ins t e = if decide (Some (key_of e) ∈ key <$> t) then t
                    else t ++ [row e]) →
  ∀ data t, ∃ new,
    foldl ins t data = t ++ new
    ∧ ∀ r, r ∈ new → ∃ e, e ∈ data ∧ r = row e ∧ (Some (key_of e) ∉ key <$> t).
Proof.
  intros Hins data. induction data as [|e data IH]; intros t.
  { exists []. rewrite app_nil_r. split; [done|]. intros r Hr.
    by apply elem_of_nil in Hr. }
  simpl. rewrite Hins.
  destruct (decide (Some (key_of e) ∈ key <$> t)) as [Hin|Hnew].
  - destruct (IH t) as (new & -> & Hfresh). exists new. split; [done|].
    intros r Hr. destruct (Hfresh r Hr) as (e' & He' & -> & Hk).
    exists e'. split; [by right | done].
  - destruct (IH (t ++ [row e])) as (new & -> & Hfresh).
    exists (row e :: new). split; [by rewrite <- app_assoc|].
    intros r [->|Hr]%elem_of_cons.
    + exists e. split; [left | done].
    + destruct (Hfresh r Hr) as (e' & He' & -> & Hk). exists e'.
      split; [by right|]. split; [done|]. intros Hin. apply Hk.
      rewrite fmap_app, elem_of_app. by left.
Qed.

Lemma bind_filter_skip {A B} (P : A → Prop) `{∀ x, Decision (P x)}
    (f : A → list B) (l : list A) :
  (∀ x, x ∈ l → ¬ P x → f x = []) → l ≫= f = filter P l ≫= f.
Proof.
  induction l as [|x l IH]; intros Hskip; [done|].
  rewrite bind_cons, filter_cons, IH by (intros y Hy; apply Hskip; by right).
  destruct (decide (P x)) as [|Hx]; [by rewrite bind_cons|].
  by rewrite (Hskip x) by (done || left).
Qed.

(** Rows appended to rows appended are rows appended. *)
Lemma appended_twice {R} (P : R → Prop) (t0 acc new : list R) :
  (∀ r, r ∈ acc → P r) → (∀ r, r ∈ new → P r) →
  ∃ new', (t0 ++ acc) ++ new = t0 ++ new' ∧ ∀ r, r ∈ new' → P r.
Proof.
  intros Hacc Hnew. exists (acc ++ new). split; [by rewrite app_assoc|].
  intros r [?|?]%elem_of_app; auto.
Qed.

Lemma sync_job_pages_appends esi_get fuel page t0 acc result :
  (∀ r, r ∈ acc → (IndustryJobs.job_id r ∉ IndustryJobs.job_id <$> t0)
                  ∧ ∃ e, r = job_row e) →
  sync_job_pages esi_get fuel page t0 (t0 ++ acc) = Some result →
  ∃ new, committed result = t0 ++ new
    ∧ ∀ r, r ∈ new → (IndustryJobs.job_id r ∉ IndustryJobs.job_id <$> t0)
                     ∧ ∃ e, r = job_row e.
Proof.
  revert page acc. induction fuel as [|fuel IH]; intros page acc Hacc; [done|]. simpl.
  destruct (esi_get page) as [| |data x_pages] eqn:Hget.
  { intros [= <-]. by exists acc. }
  { intros [= <-]. exists []. rewrite app_nil_r. split; [done|].
    intros r Hr. by apply elem_of_nil in Hr. }
  destruct data as [|e data]; [intros [= <-]; by exists acc|].
  destruct (foldl_insert_absent IndustryJobs.job_id ESIJobs.job_id job_row insert_job
              (λ _ _, eq_refl) (e :: data) (t0 ++ acc)) as (new & Hnew & Hfresh).
  assert (∀ r, r ∈ new → (IndustryJobs.job_id r ∉ IndustryJobs.job_id <$> t0)
                         ∧ ∃ e, r = job_row e) as Hnew'.
  { intros r Hr. destruct (Hfresh r Hr) as (e' & _ & -> & Hk).
    split; [|by exists e']. intros Hin. apply Hk.
    rewrite fmap_app, elem_of_app. by left. }
  destruct (appended_twice _ t0 acc new Hacc Hnew') as (new' & Heq & Hall).
  rewrite Hnew, Heq.
  destruct x_pages as [n|]; [|intros [= <-]; by exists new'].
  destruct (decide (page >= n)); [intros [= <-]; by exists new'|].
  by apply IH.
Qed.



(** X18. A stored job that is not 'delivered' is never credited. When
    the rows of job [k] in [industry_jobs] have a status other than
    'delivered', then after any [sync_industry_jobs] and a rebuild on a
    store that does not fail, the 'industry' records of the ledger are
    those of the other jobs: job [k] gives none, even when ESI now reports
    it as delivered. *)
Theorem stored_job_status_is_final str_float (db : database)
    (esi_get : Z → ESIJobs.response) (fuel : nat)
    (result : ended (list IndustryJobs.row)) (k : Z) clock :
  sync_industry_jobs esi_get fuel (industry_jobs db) = Some result →
  Some k ∈ IndustryJobs.job_id <$> industry_jobs db →
  (∀ j, j ∈ industry_jobs db → IndustryJobs.job_id j = Some k →
        IndustryJobs.status j ≠ Some "delivered") →
  ∃ db', cmd_sync_flows str_float (with_industry_jobs db (committed result))
           None clock = (Ok tt, db')
    ∧ filter (λ v, MemberFlows.v_source v = "industry") (ledger db')
      = filter (λ j, IndustryJobs.job_id j ≠ Some k) (committed result)
        ≫= industry_flows.
Proof.
  intros Hrun Hk Hstatus. unfold sync_industry_jobs in Hrun.
  rewrite <- (app_nil_r (industry_jobs db)) in Hrun at 2.
  apply sync_job_pages_appends in Hrun;
    [|intros r Hr; by apply elem_of_nil in Hr].
  destruct Hrun as (new & -> & Hfresh).
  destruct (cmd_sync_flows_completes str_float
              (with_industry_jobs db (industry_jobs db ++ new)) clock)
    as (db' & Hsync & Hl & _).
  exists db'. split; [done|]. rewrite Hl. select_by_source. simpl.
  rewrite <- filter_app. apply bind_filter_skip. intros j Hj Hid.
  assert (IndustryJobs.job_id j = Some k) as Hidk
    by (by destruct (decide (IndustryJobs.job_id j = Some k))).
  apply elem_of_app in Hj as [Hold|Hnew].
  - specialize (Hstatus j Hold Hidk). unfold industry_flows.
    destruct (IndustryJobs.status j) as [s|]; [|done].
    destruct (IndustryJobs.cost j), (IndustryJobs.installer_id j); try done.
    rewrite bool_decide_eq_false_2; [done|]. by intros ->.
  - destruct (Hfresh j Hnew) as [Hnotin _]. by rewrite Hidk in Hnotin.
Qed.

Lemma stored_job_status_is_final_sample :
  ∃ db', cmd_sync_flows sample_str_float
           (with_industry_jobs
              (with_industry_jobs sample_db sample_stored_jobs)
              [IndustryJobs.Row (Some 5) (Some 9) (Some 34) (Some 2)
                 (Some (Qc_of_Z 77)) (Some "active");
               IndustryJobs.Row (Some 6) (Some 9) (Some 35) (Some 1)
                 (Some (Qc_of_Z 10)) (Some "delivered")])
           None sample_clock = (Ok tt, db')
    ∧ filter (λ v, MemberFlows.v_source v = "industry") (ledger db')
      = [MemberFlows.Values 9 "in" "industry" None None (Qc_of_Z 10)
           "Industry job 6, type 35, runs 1"].
Proof.
  destruct (stored_job_status_is_final sample_str_float
              (with_industry_jobs sample_db sample_stored_jobs)
              sample_jobs_get 3 _ 5 sample_clock eq_refl)
    as (db' & Hrun & Hl).
  - apply list_elem_of_here.
  - intros j ->%list_elem_of_singleton _. discriminate.
  - exists db'. split; [exact Hrun|]. rewrite Hl. reflexivity.
Defined.

Lemma insert_contract_appends t0 acc e :
  (∀ r, r ∈ acc → (Contracts.contract_id r ∉ Contracts.contract_id <$> t0)
                  ∧ ∃ e, r = contract_row e) →
  ∃ acc', insert_contract (t0 ++ acc) e = t0 ++ acc'
    ∧ ∀ r, r ∈ acc' → (Contracts.contract_id r ∉ Contracts.contract_id <$> t0)
                      ∧ ∃ e, r = contract_row e.
Proof.
  intros Hacc.
  destruct (foldl_insert_absent Contracts.contract_id ESIContracts.contract_id
              contract_row insert_contract (λ _ _, eq_refl) [e] (t0 ++ acc))
    as (new & Hnew & Hfresh).
  simpl in Hnew. rewrite Hnew. apply appended_twice; [done|].
  intros r Hr. destruct (Hfresh r Hr) as (e' & _ & -> & Hk).
  split; [|by exists e']. intros Hin. apply Hk.
  rewrite fmap_app, elem_of_app. by left.
Qed.

Lemma sync_contract_rows_appends items data t0 accf acct :
  (∀ r, r ∈ accf → (Contracts.contract_id r ∉ Contracts.contract_id <$> t0)
                   ∧ ∃ e, r = contract_row e) →
  (∀ r, r ∈ acct → (Contracts.contract_id r ∉ Contracts.contract_id <$> t0)
                   ∧ ∃ e, r = contract_row e) →
  ∃ accf' acct',
    (∀ r, r ∈ accf' → (Contracts.contract_id r ∉ Contracts.contract_id <$> t0)
                      ∧ ∃ e, r = contract_row e)
    ∧ (∀ r, r ∈ acct' → (Contracts.contract_id r ∉ Contracts.contract_id <$> t0)
                        ∧ ∃ e, r = contract_row e)
    ∧ (sync_contract_rows items data (t0 ++ accf) (t0 ++ acct)
       = inl (t0 ++ accf', t0 ++ acct')
       ∨ sync_contract_rows items data (t0 ++ accf) (t0 ++ acct)
         = inr (t0 ++ accf')).
Proof.
  revert accf acct. induction data as [|e data IH]; intros accf acct Hf Ht.
  { exists accf, acct. split; [done|]. split; [done|]. by left. }
  simpl. destruct (insert_contract_appends t0 acct e Ht) as (acct1 & -> & Ht1).
  destruct (items (ESIContracts.contract_id e)).
  - by apply IH.
  - exists accf, acct. split; [done|]. split; [done|]. by right.
  - by apply IH.
Qed.

Lemma sync_contract_pages_appends esi_get items fuel page t0 accf acct result :
  (∀ r, r ∈ accf → (Contracts.contract_id r ∉ Contracts.contract_id <$> t0)
                   ∧ ∃ e, r = contract_row e) →
  (∀ r, r ∈ acct → (Contracts.contract_id r ∉ Contracts.contract_id <$> t0)
                   ∧ ∃ e, r = contract_row e) →
  sync_contract_pages esi_get items fuel page (t0 ++ accf) (t0 ++ acct)
  = Some result →
  ∃ new, committed result = t0 ++ new
    ∧ ∀ r, r ∈ new → (Contracts.contract_id r ∉ Contracts.contract_id <$> t0)
                     ∧ ∃ e, r = contract_row e.
Proof.
  revert page accf acct. induction fuel as [|fuel IH]; intros page accf acct Hf Ht;
    [done|]. simpl.
  destruct (esi_get page) as [|data x_pages] eqn:Hget.
  { intros [= <-]. by exists accf. }
  destruct data as [|e data]; [intros [= <-]; by exists acct|].
  destruct (sync_contract_rows_appends items (e :: data) t0 accf acct Hf Ht)
    as (accf' & acct' & Hf' & Ht' & [Hrows|Hrows]); rewrite Hrows.
  - destruct x_pages as [n|]; [|intros [= <-]; by exists acct'].
    destruct (decide (page >= n)); [intros [= <-]; by exists acct'|].
    by apply IH.
  - intros [= <-]. by exists accf'.
Qed.



Lemma bind_nil_all {A B} (f : A → list B) (l : list A) :
  (∀ x, x ∈ l → f x = []) → l ≫= f = [].
Proof.
  induction l as [|x l IH]; intros Hall; [done|].
  rewrite bind_cons, (Hall x) by left. apply IH. intros y Hy. apply Hall. by right.
Qed.

(** X20. [sync_contracts] by itself never changes the ledger. The
    contracts it adds have no appraisal and the contracts it finds stored
    are left as they are, so a rebuild after the sync derives the same
    records as a rebuild without it: a contract counts only once
    [janice_appraise_contract] has stored its appraisal. *)
Theorem sync_contracts_leaves_ledger str_float (db : database)
    (esi_get : Z → ESIContracts.response) (items : Z → ESIContracts.items_sync)
    (fuel : nat) (result : ended (list Contracts.row)) clock :
  sync_contracts esi_get items fuel (contracts db) = Some result →
  ∃ db1 db2,
    cmd_sync_flows str_float db None clock = (Ok tt, db1)
    ∧ cmd_sync_flows str_float (with_contracts db (committed result)) None clock
      = (Ok tt, db2)
    ∧ ledger db2 = ledger db1.
Proof.
  intros Hrun. unfold sync_contracts in Hrun.
  rewrite <- (app_nil_r (contracts db)) in Hrun.
  apply sync_contract_pages_appends in Hrun;
    try (intros r Hr; by apply elem_of_nil in Hr).
  destruct Hrun as (new & -> & Hfresh).
  destruct (cmd_sync_flows_completes str_float db clock) as (db1 & H1 & Hl1 & _).
  destruct (cmd_sync_flows_completes str_float
              (with_contracts db (contracts db ++ new)) clock)
    as (db2 & H2 & Hl2 & _).
  exists db1, db2. split; [done|]. split; [done|].
  rewrite Hl1, Hl2. unfold derived_flows. simpl. rewrite !bind_app.
  rewrite (bind_nil_all contract_in_flows new), (bind_nil_all contract_out_flows new).
  - by rewrite !app_nil_r.
  - intros r Hr. destruct (Hfresh r Hr) as (_ & e & ->).
    unfold contract_out_flows, contract_row. simpl. by repeat case_match.
  - intros r Hr. destruct (Hfresh r Hr) as (_ & e & ->).
    unfold contract_in_flows, donation_contract, contract_row. simpl.
    by repeat case_match.
Qed.

Lemma sync_contracts_leaves_ledger_sample :
  ∃ db1 db2,
    cmd_sync_flows sample_str_float sample_db None sample_clock = (Ok tt, db1)
    ∧ cmd_sync_flows sample_str_float
        (with_contracts sample_db
           (contracts sample_db
            ++ [Contracts.Row (Some 3) (Some 7) (Some 8) (Some "finished") (Some 1)
                  (Some (Qc_of_Z 0)) None]))
        None sample_clock = (Ok tt, db2)
    ∧ ledger db2 = ledger db1.
Proof.
  exact (sync_contracts_leaves_ledger sample_str_float sample_db
           sample_contracts_get (λ _, ESIContracts.ItemsCommitted) 3 _
           sample_clock eq_refl).
Defined.

(** Each record of the derived flows comes from a row of its table. *)
Lemma elem_of_derived_flows_row str_float db v :
  v ∈ derived_flows str_float db →
  (∃ d, d ∈ donations db ∧ v ∈ donation_flows d)
  ∨ (∃ k, k ∈ contracts db ∧ v ∈ contract_in_flows k)
  ∨ (∃ k, k ∈ contracts db ∧ v ∈ contract_out_flows k)
  ∨ (∃ j, j ∈ industry_jobs db ∧ v ∈ industry_flows j)
  ∨ (∃ o, o ∈ market_orders db ∧ v ∈ market_flows str_float o).
Proof.
  unfold derived_flows. rewrite !elem_of_app, !list_elem_of_bind.
  intros [(d & Hv & ?)|[(k & Hv & ?)|[(k & Hv & ?)|[(j & Hv & ?)|(o & Hv & ?)]]]];
    eauto 10.
Qed.

(** The contract rules take finished contracts only. *)
Lemma contract_flows_finished (k : Contracts.row) v :
  v ∈ contract_in_flows k ∨ v ∈ contract_out_flows k →
  Contracts.status k = Some "finished"
  ∧ MemberFlows.v_contract_id v = Contracts.contract_id k.
Proof.
  unfold contract_in_flows, donation_contract, contract_out_flows.
  intros [H|H]; rule_records H.
  all: repeat match goal with
         | H : _ && _ = true |- _ => apply andb_prop in H as [? ?]
         | H : bool_decide _ = true |- _ => apply bool_decide_eq_true in H
         end; by subst.
Qed.

(** X21. A stored contract that is not 'finished' never reaches the
    ledger. When the rows of contract [k] in [contracts] have a status
    other than 'finished', then after any [sync_contracts] and a rebuild
    on a store that does not fail no record of the ledger references
    contract [k], even when ESI now reports it as finished. *)
Theorem stored_contract_status_is_final str_float (db : database)
    (esi_get : Z → ESIContracts.response) (items : Z → ESIContracts.items_sync)
    (fuel : nat) (result : ended (list Contracts.row)) (k : Z) clock :
  sync_contracts esi_get items fuel (contracts db) = Some result →
  Some k ∈ Contracts.contract_id <$> contracts db →
  (∀ c, c ∈ contracts db → Contracts.contract_id c = Some k →
        Contracts.status c ≠ Some "finished") →
  ∃ db', cmd_sync_flows str_float (with_contracts db (committed result))
           None clock = (Ok tt, db')
    ∧ ∀ v, v ∈ ledger db' → MemberFlows.v_contract_id v ≠ Some k.
Proof.
  intros Hrun Hk Hstatus. unfold sync_contracts in Hrun.
  rewrite <- (app_nil_r (contracts db)) in Hrun.
  apply sync_contract_pages_appends in Hrun;
    try (intros r Hr; by apply elem_of_nil in Hr).
  destruct Hrun as (new & -> & Hfresh).
  destruct (cmd_sync_flows_completes str_float
              (with_contracts db (contracts db ++ new)) clock)
    as (db' & Hsync & Hl & _).
  exists db'. split; [done|]. intros v. rewrite Hl.
  assert (∀ c, c ∈ contracts db ++ new →
            v ∈ contract_in_flows c ∨ v ∈ contract_out_flows c →
            MemberFlows.v_contract_id v ≠ Some k) as Hcontract.
  { intros c Hc Hv Hid. apply contract_flows_finished in Hv as [Hfin Hvid].
    rewrite Hvid in Hid. apply elem_of_app in Hc as [Hold|Hnew].
    - by apply (Hstatus c Hold Hid).
    - destruct (Hfresh c Hnew) as [Hnotin _]. by rewrite Hid in Hnotin. }
  intros [(d & _ & H)|[(c & Hc & H)|[(c & Hc & H)|[(j & _ & H)|(o & _ & H)]]]]%elem_of_derived_flows_row.
  - unfold donation_flows in H. rule_records H. done.
  - apply (Hcontract c Hc). by left.
  - apply (Hcontract c Hc). by right.
  - unfold industry_flows in H. rule_records H. done.
  - unfold market_flows in H. rule_records H. done.
Qed.

Lemma stored_contract_status_is_final_sample :
  ∃ db', cmd_sync_flows sample_str_float
           (with_contracts
              (with_contracts sample_db
                 [Contracts.Row (Some 3) (Some 7) (Some 8) (Some "outstanding")
                    (Some 1) (Some (Qc_of_Z 0)) (Some (Qc_of_Z 1000))])
              [Contracts.Row (Some 3) (Some 7) (Some 8) (Some "outstanding")
                 (Some 1) (Some (Qc_of_Z 0)) (Some (Qc_of_Z 1000));
               Contracts.Row (Some 1) (Some 7) (Some 8) (Some "finished")
                 (Some 1) (Some (Qc_of_Z 100)) None])
           None sample_clock = (Ok tt, db')
    ∧ ∀ v, v ∈ ledger db' → MemberFlows.v_contract_id v ≠ Some 3.
Proof.
  apply (stored_contract_status_is_final sample_str_float
           (with_contracts sample_db
              [Contracts.Row (Some 3) (Some 7) (Some 8) (Some "outstanding")
                 (Some 1) (Some (Qc_of_Z 0)) (Some (Qc_of_Z 1000))])
           sample_contracts_get (λ _, ESIContracts.ItemsCommitted) 3
           (Raised _) 3 sample_clock).
  - reflexivity.
  - apply list_elem_of_here.
  - intros c ->%list_elem_of_singleton _. discriminate.
Defined.
